(** * SplineBase: the wrapper around the SISL curve kernel

    A shallow embedding of [src/spline.cpp] (class
    [base::geometry::SplineBase]) and the properties of its cache,
    its queries, its closest-point searches and its trajectory error
    model.

    - A C++ [double] is an IEEE 754 binary64 number: Rocq's primitive
      [float], with the operations of [PrimFloat].
    - An [int] that only carries a status, an order or a dimension is a
      [Z]; where the code converts it ([points.size() / dimension]) the
      conversion is written out.
    - The SISL kernel, [<cmath>] and Eigen are not part of the
      repository: they are taken as records of functions ([Sisl], [Libs]).
    - A method is a computation over the object [*this] and the world
      around it (the kernel's memory and the log of kernel calls); it
      returns, throws, or runs into undefined behaviour.  What a method
      wrote before it threw stays written. *)

From Stdlib Require Import ZArith List Bool Lia String.
From Stdlib Require Import Floats.
Import ListNotations.

Set Implicit Arguments.

Local Open Scope Z_scope.

(** ** Data *)

Definition double := float.

(** [M_PI] of [<cmath>]: the binary64 number nearest to pi. *)
Definition M_PI : double := 0x1.921fb54442d18p+1%float.

(** A [SISLCurve*]; the null pointer is [0]. *)
Definition SISLCurve_ptr := Z.
Definition NULL : SISLCurve_ptr := 0.

(** [if (curve)] *)
Definition non_null (p : SISLCurve_ptr) : bool := negb (p =? NULL).

(** [Eigen::Vector3d], [Eigen::Vector2d] and [Eigen::Matrix3d] (by rows). *)
Record Vector3d := mkVector3d { v3_x : double; v3_y : double; v3_z : double }.
Record Vector2d := mkVector2d { v2_x : double; v2_y : double }.
Record Matrix3d := mkMatrix3d { row0 : Vector3d; row1 : Vector3d; row2 : Vector3d }.

(** The two entries of [SISLIntcurve::epar1] that the wrapper reads. *)
Record SISLIntcurve := mkIntcurve { epar1_0 : double; epar1_1 : double }.

(** The exceptions of [<stdexcept>] that the wrapper throws. *)
Inductive exception :=
| out_of_range (what : string)
| runtime_error (what : string)
| logic_error (what : string).

Inductive outcome (A : Type) :=
| Returns (a : A)
| Throws (e : exception)
| Undefined      (* behaviour that C++ leaves undefined *)
| OutOfFuel.     (* a loop did not end within the fuel given *)
Arguments Returns {A} a.
Arguments Throws {A} e.
Arguments Undefined {A}.
Arguments OutOfFuel {A}.

(** The order in which the two error terms of [poseError] are evaluated:
    they are arguments of one constructor call, and C++ leaves their order
    to the compiler. *)
Inductive evaluation_order := LeftToRight | RightToLeft.

(** The fields of [SplineBase]. *)
Record SplineBase := mkSplineBase {
  dimension : Z;
  curve : SISLCurve_ptr;
  geometric_resolution : double;
  curve_order : Z;
  start_param : double;
  end_param : double;
  has_curve_length : bool;
  curve_length : double;
  has_curvature_max : bool;
  curvature_max : double
}.

Definition set_curve (c : SISLCurve_ptr) (s : SplineBase) : SplineBase :=
  mkSplineBase (dimension s) c (geometric_resolution s) (curve_order s)
    (start_param s) (end_param s) (has_curve_length s) (curve_length s)
    (has_curvature_max s) (curvature_max s).
Definition set_start_param (x : double) (s : SplineBase) : SplineBase :=
  mkSplineBase (dimension s) (curve s) (geometric_resolution s) (curve_order s)
    x (end_param s) (has_curve_length s) (curve_length s)
    (has_curvature_max s) (curvature_max s).
Definition set_end_param (x : double) (s : SplineBase) : SplineBase :=
  mkSplineBase (dimension s) (curve s) (geometric_resolution s) (curve_order s)
    (start_param s) x (has_curve_length s) (curve_length s)
    (has_curvature_max s) (curvature_max s).
Definition set_has_curve_length (b : bool) (s : SplineBase) : SplineBase :=
  mkSplineBase (dimension s) (curve s) (geometric_resolution s) (curve_order s)
    (start_param s) (end_param s) b (curve_length s)
    (has_curvature_max s) (curvature_max s).
Definition set_curve_length (x : double) (s : SplineBase) : SplineBase :=
  mkSplineBase (dimension s) (curve s) (geometric_resolution s) (curve_order s)
    (start_param s) (end_param s) (has_curve_length s) x
    (has_curvature_max s) (curvature_max s).
Definition set_has_curvature_max (b : bool) (s : SplineBase) : SplineBase :=
  mkSplineBase (dimension s) (curve s) (geometric_resolution s) (curve_order s)
    (start_param s) (end_param s) (has_curve_length s) (curve_length s)
    b (curvature_max s).
Definition set_curvature_max (x : double) (s : SplineBase) : SplineBase :=
  mkSplineBase (dimension s) (curve s) (geometric_resolution s) (curve_order s)
    (start_param s) (end_param s) (has_curve_length s) (curve_length s)
    (has_curvature_max s) x.

(** ** The collaborators *)

(** The functions of SISL that the wrapper calls, over the kernel's memory
    [heap] (the curve objects behind the pointers).  An evaluator reads the
    memory; [freeCurve], [copyCurve], the two interpolators and [s1940]
    change it.  An output parameter is a component of the result, the
    status comes last. *)
Record Sisl (heap : Type) := mkSisl {
  curve_idim : heap -> SISLCurve_ptr -> option Z;   (* curve->idim; None: not a live curve *)
  curve_ik : heap -> SISLCurve_ptr -> option Z;     (* curve->ik *)
  s1363 : heap -> SISLCurve_ptr -> double * double * Z;
  s1227 : heap -> SISLCurve_ptr -> Z -> double -> list double * Z;
  s2550 : heap -> SISLCurve_ptr -> double -> double * Z;
  s2556 : heap -> SISLCurve_ptr -> double -> double * Z;
  s1240 : heap -> SISLCurve_ptr -> double -> double * Z;
  s1356 : list double -> Z -> Z -> list Z -> Z -> double -> heap ->
          (double * SISLCurve_ptr * Z) * heap;
  s1357 : list double -> Z -> Z -> list Z -> list double -> Z -> double -> heap ->
          (double * SISLCurve_ptr * Z) * heap;
  s1953 : heap -> SISLCurve_ptr -> list double -> Z -> double -> double ->
          list double * list SISLIntcurve * Z;
  s1774 : heap -> SISLCurve_ptr -> list double -> Z -> double -> double -> double ->
          double -> double * Z;
  s1940 : SISLCurve_ptr -> list double -> Z -> Z -> Z -> Z -> heap ->
          (SISLCurve_ptr * list double * Z) * heap;
  s2559 : heap -> SISLCurve_ptr -> double -> Vector3d * Vector3d * Vector3d * Z;
  freeCurve : SISLCurve_ptr -> heap -> heap;
  copyCurve : SISLCurve_ptr -> heap -> SISLCurve_ptr * heap
}.

(** [atan2] of [<cmath>], the two Eigen operations the wrapper uses, and
    the content of a [Vector3d] that was declared and not yet written. *)
Record Libs := mkLibs {
  atan2 : double -> double -> double;
  normalize : Vector2d -> Vector2d;
  norm : Vector3d -> double;
  uninitialized : Vector3d
}.

(** One entry of the log of kernel calls: the function and the inputs that
    matter to the wrapper's contract. *)
Inductive kernel_call :=
| call_s1363 (c : SISLCurve_ptr)
| call_s1227 (c : SISLCurve_ptr) (par : double)
| call_s2550 (c : SISLCurve_ptr) (par : double)
| call_s2556 (c : SISLCurve_ptr) (par : double)
| call_s1240 (c : SISLCurve_ptr) (epsge : double)
| call_s1356 (points : list double) (count dim order : Z)
| call_s1357 (points parameters : list double) (count dim order : Z)
| call_s1953 (c : SISLCurve_ptr) (pt : list double) (epsco epsge : double)
| call_s1774 (c : SISLCurve_ptr) (pt : list double) (epsge start_ end_ guess : double)
| call_s1940 (c : SISLCurve_ptr) (eps : list double)
| call_s2559 (c : SISLCurve_ptr) (par : double)
| call_freeCurve (c : SISLCurve_ptr)
| call_copyCurve (c : SISLCurve_ptr).

(** ** Computations *)

Section Wrapper.

Context {heap : Type}.
Variable K : Sisl heap.
Variable L : Libs.

(** The world around an object: the kernel's memory and the kernel calls
    made so far, the latest first. *)
Record World := mkWorld { kheap : heap; calls : list kernel_call }.

Definition M (A : Type) : Type := SplineBase -> World -> outcome A * SplineBase * World.

Definition ret {A} (a : A) : M A := fun s w => (Returns a, s, w).
Definition throw {A} (e : exception) : M A := fun s w => (Throws e, s, w).
Definition undefined {A} : M A := fun s w => (Undefined, s, w).
Definition out_of_fuel {A} : M A := fun s w => (OutOfFuel, s, w).

Definition bind {A B} (m : M A) (k : A -> M B) : M B :=
  fun s w =>
    match m s w with
    | (Returns a, s', w') => k a s' w'
    | (Throws e, s', w') => (Throws e, s', w')
    | (Undefined, s', w') => (Undefined, s', w')
    | (OutOfFuel, s', w') => (OutOfFuel, s', w')
    end.

Notation "x <- m ;; k" := (bind m (fun x => k))
  (at level 61, m at next level, right associativity).
Notation "' pat <- m ;; k" := (bind m (fun x => let pat := x in k))
  (at level 61, pat pattern, m at next level, right associativity).
Notation "m ;;; k" := (bind m (fun _ => k))
  (at level 61, right associativity).

Definition this : M SplineBase := fun s w => (Returns s, s, w).
Definition update (f : SplineBase -> SplineBase) : M unit :=
  fun s w => (Returns tt, f s, w).

(** A call of an evaluator: logged, the memory read. *)
Definition query {A} (c : kernel_call) (f : heap -> A) : M A :=
  fun s w => (Returns (f (kheap w)), s, mkWorld (kheap w) (c :: calls w)).

(** A call that changes the kernel's memory. *)
Definition command {A} (c : kernel_call) (f : heap -> A * heap) : M A :=
  fun s w => let (a, h) := f (kheap w) in (Returns a, s, mkWorld h (c :: calls w)).

(** ** The methods of [SplineBase], in the order of the source *)

(** [SplineBase(int dim, double _geometric_resolution, int _curve_order)].
    The constructor writes neither [start_param] nor [end_param]: they hold
    whatever the memory held, [p0] and [p1]. *)
Definition SplineBase_empty (dim : Z) (_geometric_resolution : double)
    (_curve_order : Z) (p0 p1 : double) : SplineBase :=
  mkSplineBase dim NULL _geometric_resolution _curve_order p0 p1
    false (-1)%float false (-1)%float.

(** [SplineBase(double geometric_resolution, SISLCurve* curve)]: reads
    [curve->idim] and [curve->ik], then asks the kernel for the domain. *)
Definition SplineBase_of_curve (geometric_resolution : double)
    (curve : SISLCurve_ptr) (w : World) : outcome SplineBase * World :=
  match curve_idim K (kheap w) curve, curve_ik K (kheap w) curve with
  | Some idim, Some ik =>
      let '(p0, p1, status) := s1363 K (kheap w) curve in
      let w' := mkWorld (kheap w) (call_s1363 curve :: calls w) in
      if negb (status =? 0)
      then (Throws (runtime_error "cannot get the curve start & end parameters"), w')
      else (Returns (mkSplineBase idim curve geometric_resolution ik p0 p1
                       false (-1)%float false (-1)%float), w')
  | _, _ => (Undefined, w)
  end.

Definition in_range_msg : string :=
  "_param is not in the [start_param, end_param] range".

(** [_param < start_param || _param > end_param] *)
Definition outside (s : SplineBase) (_param : double) : bool :=
  (_param <? start_param s)%float || (end_param s <? _param)%float.

(** [getPoint]: the result is what the kernel wrote to [result]. *)
Definition getPoint (_param : double) : M (list double) :=
  s <- this ;;
  if outside s _param then throw (out_of_range in_range_msg) else
  '(result, status) <-
     query (call_s1227 (curve s) _param)
           (fun h => s1227 K h (curve s) 0 _param) ;;
  if negb (status =? 0)
  then throw (runtime_error "SISL error while computing a curve point")
  else ret result.

Definition getCurvature (_param : double) : M double :=
  s <- this ;;
  if outside s _param then throw (out_of_range in_range_msg) else
  '(curvature, status) <-
     query (call_s2550 (curve s) _param) (fun h => s2550 K h (curve s) _param) ;;
  if negb (status =? 0)
  then throw (runtime_error "SISL error while computing a curvature")
  else ret curvature.

Definition getVariationOfCurvature (_param : double) : M double :=
  s <- this ;;
  if outside s _param then throw (out_of_range in_range_msg) else
  '(VoC, status) <-
     query (call_s2556 (curve s) _param) (fun h => s2556 K h (curve s) _param) ;;
  if negb (status =? 0)
  then throw (runtime_error "SISL error while computing a variation of curvature")
  else ret VoC.

(** [getCurveLength]: the kernel writes through [&curve_length] before the
    status is looked at. *)
Definition getCurveLength : M double :=
  s <- this ;;
  if has_curve_length s then ret (curve_length s) else
  '(len, status) <-
     query (call_s1240 (curve s) (geometric_resolution s))
           (fun h => s1240 K h (curve s) (geometric_resolution s)) ;;
  update (set_curve_length len) ;;;
  if negb (status =? 0)
  then throw (runtime_error "cannot get the curve length")
  else
    update (set_has_curve_length true) ;;;
    s <- this ;;
    ret (curve_length s).

Definition getUnitParameter : M double :=
  len <- getCurveLength ;;
  s <- this ;;
  ret ((end_param s - start_param s) / len)%float.

(** The loop of [getCurvatureMax], from [p] on, with [fuel] rounds at most. *)
Fixpoint scanCurvature (fuel : nat) (p delPara : double) : M unit :=
  s <- this ;;
  if (p <=? end_param s)%float then
    match fuel with
    | O => out_of_fuel
    | S fuel' =>
        curvature <- getCurvature p ;;
        s <- this ;;
        (if (curvature_max s <? curvature)%float
         then update (set_curvature_max curvature)
         else ret tt) ;;;
        scanCurvature fuel' (p + delPara)%float delPara
    end
  else ret tt.

Definition getCurvatureMax (fuel : nat) : M double :=
  s <- this ;;
  if has_curvature_max s then ret (curvature_max s) else
  unit_ <- getUnitParameter ;;
  s <- this ;;
  let delPara := (unit_ * geometric_resolution s)%float in
  update (set_curvature_max 0%float) ;;;
  scanCurvature fuel (start_param s) delPara ;;;
  update (set_has_curvature_max true) ;;;
  s <- this ;;
  ret (curvature_max s).

(** [int] to [size_t], and [size_t] to [int], as on the 64-bit targets. *)
Definition to_size_t (n : Z) : Z := n mod 2 ^ 64.
Definition to_int (n : Z) : Z := (n + 2 ^ 31) mod 2 ^ 32 - 2 ^ 31.

Definition is_empty {A} (l : list A) : bool :=
  match l with [] => true | _ => false end.

(** [interpolate].  [points.size() / dimension] is a division of [size_t];
    by zero it is undefined, and so is [&v[0]] of an empty vector.  [free]
    of [point_param] has no part in the model. *)
Definition interpolate (points parameters : list double) : M unit :=
  s <- this ;;
  if to_size_t (dimension s) =? 0 then undefined else
  let point_types : list Z :=
    repeat 1 (Z.to_nat (Z.of_nat (List.length points) / to_size_t (dimension s))) in
  update (set_start_param 0%float) ;;;
  (if non_null (curve s)
   then command (call_freeCurve (curve s)) (fun h => (tt, freeCurve K (curve s) h)) ;;;
        update (set_curve NULL)
   else ret tt) ;;;
  s <- this ;;
  if is_empty points || is_empty point_types then undefined else
  let count := to_int (Z.of_nat (List.length point_types)) in
  '(end_, crv, status) <-
     (if is_empty parameters
      then command (call_s1356 points count (dimension s) (curve_order s))
             (s1356 K points count (dimension s) point_types
                (curve_order s) (start_param s))
      else command (call_s1357 points parameters count (dimension s) (curve_order s))
             (s1357 K points count (dimension s) point_types parameters
                (curve_order s) (start_param s))) ;;
  update (set_end_param end_) ;;;
  update (set_curve crv) ;;;
  if negb (status =? 0)
  then throw (runtime_error "cannot generate the curve")
  else ret tt.

(** [findClosestPoints]: the two vectors passed by reference come back
    extended. *)
Definition findClosestPoints (ref_point : list double)
    (_result_points : list double) (_result_curves : list (double * double))
    (_geores : double) : M (list double * list (double * double)) :=
  s <- this ;;
  '(points, curves, status) <-
     query (call_s1953 (curve s) ref_point _geores _geores)
           (fun h => s1953 K h (curve s) ref_point (dimension s) _geores _geores) ;;
  if negb (status =? 0)
  then throw (runtime_error "failed to find the closest points")
  else ret (_result_points ++ points,
            _result_curves ++ map (fun c => (epar1_0 c, epar1_1 c)) curves).

Definition findOneClosestPoint (_pt : list double) (_geores : double) : M double :=
  '(points, curves) <- findClosestPoints _pt [] [] _geores ;;
  match points with
  | [] =>
      match curves with
      | [] => throw (logic_error "no closes point returned by findClosestPoints")
      | front :: _ => ret (fst front)
      end
  | front :: _ => ret front
  end.

Definition localClosestPointSearch (ref_point : list double)
    (_guess _start _end _geores : double) : M double :=
  s <- this ;;
  '(param, status) <-
     query (call_s1774 (curve s) ref_point _geores _start _end _guess)
           (fun h => s1774 K h (curve s) ref_point (dimension s) _geores
                       _start _end _guess) ;;
  if status <? 0
  then throw (runtime_error "failed to find the closest points")
  else ret param.

Definition clear : M unit :=
  s <- this ;;
  if non_null (curve s)
  then command (call_freeCurve (curve s)) (fun h => (tt, freeCurve K (curve s) h)) ;;;
       update (set_curve NULL)
  else ret tt.

(** [simplify(double tolerance)] *)
Definition simplify (tolerance : double) : M (list double) :=
  s <- this ;;
  if negb (non_null (curve s))
  then throw (runtime_error "the curve is not initialized") else
  let epsilon := [tolerance; tolerance; tolerance] in
  '(result, maxerr, status) <-
     command (call_s1940 (curve s) epsilon)
       (s1940 K (curve s) epsilon (curve_order s) (curve_order s) 1 10) ;;
  if negb (status =? 0)
  then throw (runtime_error "SISL error while simplifying a curve")
  else
    command (call_freeCurve (curve s)) (fun h => (tt, freeCurve K (curve s) h)) ;;;
    update (set_curve result) ;;;
    ret (firstn 3 maxerr).

(** [simplify()] *)
Definition simplify_default : M (list double) :=
  s <- this ;;
  simplify (geometric_resolution s).

(** [getFrenetFrame]: no check of the parameter, none of the status. *)
Definition getFrenetFrame (_param : double) : M Matrix3d :=
  s <- this ;;
  '(t, n, b, status) <-
     query (call_s2559 (curve s) _param) (fun h => s2559 K h (curve s) _param) ;;
  ret (mkMatrix3d t n b).

Definition getHeading (_param : double) : M double :=
  frame <- getFrenetFrame _param ;;
  let Xaxis := normalize L (mkVector2d (v3_x (row0 frame)) (v3_y (row0 frame))) in
  ret (atan2 L (v2_y Xaxis) (v2_x Xaxis)).

Definition headingError (_actHeading _param : double) : M double :=
  heading <- getHeading _param ;;
  let error := (_actHeading - heading)%float in
  if (M_PI <? error)%float then ret (error - 2 * M_PI)%float
  else if (error <? - M_PI)%float then ret (error + 2 * M_PI)%float
  else ret error.

(** What [getPoint] writes into a [Vector3d]: the first coordinates; more
    than three run over the buffer. *)
Definition write3 (buf : Vector3d) (l : list double) : option Vector3d :=
  match l with
  | [] => Some buf
  | [a] => Some (mkVector3d a (v3_y buf) (v3_z buf))
  | [a; b] => Some (mkVector3d a b (v3_z buf))
  | [a; b; c] => Some (mkVector3d a b c)
  | _ => None
  end.

Definition data (v : Vector3d) : list double := [v3_x v; v3_y v; v3_z v].

(** [distanceError]: [error] is [_pt - curve_point] with [error(2) = 0.0]
    written over its third component; [getHeading] is called once [pt_vec]
    is normalized. *)
Definition distanceError (_pt : Vector3d) (_param : double) : M double :=
  written <- getPoint _param ;;
  match write3 (uninitialized L) written with
  | None => undefined
  | Some curve_point =>
      let error :=
        mkVector3d (v3_x _pt - v3_x curve_point)%float
                   (v3_y _pt - v3_y curve_point)%float 0%float in
      let pt_vec := normalize L (mkVector2d (v3_x error) (v3_y error)) in
      heading <- getHeading _param ;;
      let angle := (atan2 L (v2_y pt_vec) (v2_x pt_vec) - heading)%float in
      ret (if (0 <=? angle)%float then norm L error else (- norm L error)%float)
  end.

(** Modelled from the spec: [getGeometricResolution] is defined in
    [spline.h], which is not among the sources; the spec has the search
    run at the configured geometric resolution. *)
Definition getGeometricResolution : M double :=
  s <- this ;;
  ret (geometric_resolution s).

(** [poseError].  The two error terms are evaluated in the order the
    compiler chose, [order]. *)
Definition poseError (order : evaluation_order) (_pt : Vector3d)
    (_actZRot _st_para _len_tol : double) : M Vector3d :=
  unit_ <- getUnitParameter ;;
  let del_para := (unit_ * _len_tol)%float in
  geores <- getGeometricResolution ;;
  param <- localClosestPointSearch (data _pt) _st_para _st_para
             (_st_para + del_para)%float geores ;;
  match order with
  | LeftToRight =>
      d <- distanceError _pt param ;;
      h <- headingError _actZRot param ;;
      ret (mkVector3d d h param)
  | RightToLeft =>
      h <- headingError _actZRot param ;;
      d <- distanceError _pt param ;;
      ret (mkVector3d d h param)
  end.

(** ** Assignment between objects *)

(** The objects alive, by address. *)
Definition Store := list SplineBase.

Fixpoint store_set (a : nat) (s : SplineBase) (st : Store) : Store :=
  match st, a with
  | [], _ => []
  | _ :: st', O => s :: st'
  | x :: st', S a' => x :: store_set a' s st'
  end.

(** [operator=]: [this_] and [source] are the addresses of the two
    objects; a reference to no object is undefined. *)
Definition assign (this_ source : nat) (st : Store) (w : World)
    : outcome nat * Store * World :=
  match nth_error st this_, nth_error st source with
  | Some _, Some src =>
      if Nat.eqb source this_ then (Returns this_, st, w) else
      let '(c, w') :=
        if non_null (curve src)
        then let (c, h) := copyCurve K (curve src) (kheap w) in
             (c, mkWorld h (call_copyCurve (curve src) :: calls w))
        else (NULL, w) in
      (Returns this_,
       store_set this_
         (mkSplineBase (dimension src) c (geometric_resolution src)
            (curve_order src) (start_param src) (end_param src)
            (has_curve_length src) (curve_length src)
            (has_curvature_max src) (curvature_max src)) st,
       w')
  | _, _ => (Undefined, st, w)
  end.

(** A method called on the object at address [a]. *)
Definition at_ {A} (a : nat) (m : M A) (st : Store) (w : World)
    : outcome A * Store * World :=
  match nth_error st a with
  | Some s => let '(r, s', w') := m s w in (r, store_set a s' st, w')
  | None => (Undefined, st, w)
  end.

End Wrapper.

Arguments World heap : clear implicits.
Arguments M heap A : clear implicits.

(** ** Runs of methods *)

Section Runs.

Context {heap : Type}.
Variable K : Sisl heap.
Variable L : Libs.

Definition result_of {A} (r : outcome A * SplineBase * World heap) : outcome A :=
  fst (fst r).
Definition state_of {A} (r : outcome A * SplineBase * World heap) : SplineBase :=
  snd (fst r).
Definition world_of {A} (r : outcome A * SplineBase * World heap) : World heap :=
  snd r.

(** The kernel calls of a run, the earliest first: what the log gained. *)
Definition new_calls (before after : World heap) : list kernel_call :=
  rev (firstn (List.length (calls after) - List.length (calls before)) (calls after)).

(** A call of a member function on one object; [operator=], which involves
    two, is a [step] of its own below. *)
Inductive method :=
| GetPoint (_param : double)
| GetCurvature (_param : double)
| GetVariationOfCurvature (_param : double)
| GetCurveLength
| GetUnitParameter
| GetCurvatureMax (fuel : nat)
| Interpolate (points parameters : list double)
| FindOneClosestPoint (_pt : list double) (_geores : double)
| FindClosestPoints (ref_point : list double) (_result_points : list double)
    (_result_curves : list (double * double)) (_geores : double)
| LocalClosestPointSearch (ref_point : list double) (_guess _start _end _geores : double)
| Clear
| Simplify (tolerance : double)
| SimplifyDefault
| GetFrenetFrame (_param : double)
| GetHeading (_param : double)
| HeadingError (_actHeading _param : double)
| DistanceError (_pt : Vector3d) (_param : double)
| PoseError (order : evaluation_order) (_pt : Vector3d)
    (_actZRot _st_para _len_tol : double).

(** The three ways the code replaces the curve of an object. *)
Definition replaces_curve (m : method) : bool :=
  match m with
  | Interpolate _ _ | Clear | Simplify _ | SimplifyDefault => true
  | _ => false
  end.

(** What a computation leaves behind, whatever its outcome. *)
Definition effect {A} (m : M heap A) (sw : SplineBase * World heap)
    : SplineBase * World heap :=
  let '(_, s', w') := m (fst sw) (snd sw) in (s', w').

Definition call (m : method) : SplineBase * World heap -> SplineBase * World heap :=
  match m with
  | GetPoint p => effect (getPoint K p)
  | GetCurvature p => effect (getCurvature K p)
  | GetVariationOfCurvature p => effect (getVariationOfCurvature K p)
  | GetCurveLength => effect (getCurveLength K)
  | GetUnitParameter => effect (getUnitParameter K)
  | GetCurvatureMax fuel => effect (getCurvatureMax K fuel)
  | Interpolate pts pars => effect (interpolate K pts pars)
  | FindOneClosestPoint pt g => effect (findOneClosestPoint K pt g)
  | FindClosestPoints pt ps cs g => effect (findClosestPoints K pt ps cs g)
  | LocalClosestPointSearch pt gu a b g => effect (localClosestPointSearch K pt gu a b g)
  | Clear => effect (clear K)
  | Simplify tol => effect (simplify K tol)
  | SimplifyDefault => effect (simplify_default K)
  | GetFrenetFrame p => effect (getFrenetFrame K p)
  | GetHeading p => effect (getHeading K L p)
  | HeadingError a p => effect (headingError K L a p)
  | DistanceError pt p => effect (distanceError K L pt p)
  | PoseError o pt a st tol => effect (poseError K L o pt a st tol)
  end.

(** A caller that makes the calls one after the other, catching what they
    throw. *)
Definition run (ms : list method) (sw : SplineBase * World heap)
    : SplineBase * World heap :=
  fold_left (fun acc m => call m acc) ms sw.

(** A step of a program over the objects alive: a call of a member
    function on the object at an address, or an assignment of the object at
    [source] to the object at [this_]. *)
Inductive step :=
| Method (a : nat) (m : method)
| Assignment (this_ source : nat).

Definition do_step (x : step) (stw : Store * World heap) : Store * World heap :=
  match x with
  | Method a m =>
      match nth_error (fst stw) a with
      | Some s =>
          let (s', w') := call m (s, snd stw) in
          (store_set a s' (fst stw), w')
      | None => stw
      end
  | Assignment this_ source =>
      let '(_, st', w') := assign K this_ source (fst stw) (snd stw) in
      (st', w')
  end.

Definition exec (steps : list step) (stw : Store * World heap)
    : Store * World heap :=
  fold_left (fun acc x => do_step x acc) steps stw.

(** A step that the object at [a] may take part in: a call on another
    object, or a call on it of a method that [ok] admits; an assignment to
    another object, or of an object to itself. *)
Definition allowed (ok : method -> bool) (a : nat) (x : step) : bool :=
  match x with
  | Method b m => negb (Nat.eqb b a) || ok m
  | Assignment this_ source => negb (Nat.eqb this_ a) || Nat.eqb source this_
  end.

(** The step assigns no other object to the object at [a]. *)
Definition spares (a : nat) : step -> bool := allowed (fun _ => true) a.

(** The step neither assigns another object to the object at [a] nor calls
    [interpolate], [simplify] or [clear] on it. *)
Definition leaves_curve (a : nat) : step -> bool :=
  allowed (fun m => negb (replaces_curve m)) a.

(** The step is no [interpolate], [simplify] or [clear] on any object and
    no assignment between two different objects. *)
Definition quiet (x : step) : bool :=
  match x with
  | Method _ m => negb (replaces_curve m)
  | Assignment this_ source => Nat.eqb source this_
  end.

(** The cache of an object: the two flags and the two values. *)
Definition cache (s : SplineBase) : bool * double * bool * double :=
  (has_curve_length s, curve_length s, has_curvature_max s, curvature_max s).

(** What [getHeading] computes from the tangent the kernel gives at
    [_param]. *)
Definition heading_at (s : SplineBase) (w : World heap) (_param : double) : double :=
  let '(t, _, _, _) := s2559 K (kheap w) (curve s) _param in
  let Xaxis := normalize L (mkVector2d (v3_x t) (v3_y t)) in
  atan2 L (v2_y Xaxis) (v2_x Xaxis).

(** The raw difference of [headingError] after at most one correction by
    two pi: down when it exceeds pi, up when it is below minus pi. *)
Definition wrap (error : double) : double :=
  if (M_PI <? error)%float then (error - 2 * M_PI)%float
  else if (error <? - M_PI)%float then (error + 2 * M_PI)%float
  else error.

End Runs.

(** ** A kernel to run the wrapper on

    Straight curves along the X axis, at unit speed unless the caller gives
    the parameters: enough of a kernel to evaluate the methods on concrete
    inputs. *)

Module Line.

Local Open Scope float_scope.

Record segment := mkSegment {
  seg_dim : Z;
  seg_order : Z;
  seg_x0 : double;     (* the curve runs from (seg_x0, 0, 0) ... *)
  seg_x1 : double;     (* ... to (seg_x1, 0, 0) *)
  seg_end : double;    (* over the parameters 0 .. seg_end *)
  seg_live : bool      (* not yet freed *)
}.

(** The curve behind pointer [p] is entry [p - 1]. *)
Definition heap := list segment.

Definition lookup (h : heap) (p : SISLCurve_ptr) : option segment :=
  if (p <=? 0)%Z then None else
  match nth_error h (Z.to_nat (p - 1)) with
  | Some c => if seg_live c then Some c else None
  | None => None
  end.

Definition fresh (h : heap) : SISLCurve_ptr := (Z.of_nat (List.length h) + 1)%Z.

Definition clamp (x lo hi : double) : double :=
  if x <? lo then lo else if hi <? x then hi else x.

Definition free_at (h : heap) (p : SISLCurve_ptr) : heap :=
  match lookup h p with
  | Some c =>
      firstn (Z.to_nat (p - 1)) h ++
      mkSegment (seg_dim c) (seg_order c) (seg_x0 c) (seg_x1 c) (seg_end c) false ::
      skipn (S (Z.to_nat (p - 1))) h
  | None => h
  end.

Definition fit (points : list double) (count dim order : Z) (t_end : option double)
    (start : double) (h : heap) : (double * SISLCurve_ptr * Z) * heap :=
  if (count <? order)%Z then ((start, NULL, (-1)%Z), h) else
  let x0 := nth 0 points 0 in
  let x1 := nth (Z.to_nat ((count - 1) * dim)) points 0 in
  let e := match t_end with Some t => t | None => start + abs (x1 - x0) end in
  ((e, fresh h, 0%Z), h ++ [mkSegment dim order x0 x1 e true]).

(** [search_status] is the status the two searches report. *)
Definition kernel (search_status : Z) : Sisl heap :=
  {| curve_idim h p := option_map seg_dim (lookup h p);
     curve_ik h p := option_map seg_order (lookup h p);
     s1363 h p :=
       match lookup h p with
       | Some c => (0, seg_end c, 0%Z)
       | None => (0, 0, (-150)%Z)
       end;
     s1227 h p der t :=
       match lookup h p with
       | Some c => ([seg_x0 c + t * ((seg_x1 c - seg_x0 c) / seg_end c); 0; 0], 0%Z)
       | None => ([], (-150)%Z)
       end;
     s2550 h p t := match lookup h p with Some _ => (0, 0%Z) | None => (0, (-150)%Z) end;
     s2556 h p t := match lookup h p with Some _ => (0, 0%Z) | None => (0, (-150)%Z) end;
     s1240 h p eps :=
       match lookup h p with
       | Some c => (abs (seg_x1 c - seg_x0 c), 0%Z)
       | None => (0, (-150)%Z)
       end;
     s1356 points count dim types order start h :=
       fit points count dim order None start h;
     s1357 points count dim types parameters order start h :=
       fit points count dim order (Some (last parameters 0)) start h;
     s1953 h p pt dim epsco epsge :=
       match lookup h p with
       | Some c => ([clamp (nth 0 pt 0 - seg_x0 c) 0 (seg_end c)], [], search_status)
       | None => ([], [], (-150)%Z)
       end;
     s1774 h p pt dim epsge start_ end_ guess :=
       match lookup h p with
       | Some c => (clamp (nth 0 pt 0 - seg_x0 c) start_ end_, search_status)
       | None => (guess, (-150)%Z)
       end;
     s1940 p eps ik1 ik2 closed iter h :=
       match lookup h p with
       | Some c => ((fresh h, [0; 0; 0], 0%Z), h ++ [c])
       | None => ((NULL, [0; 0; 0], (-150)%Z), h)
       end;
     s2559 h p t :=
       (mkVector3d 1 0 0, mkVector3d 0 1 0, mkVector3d 0 0 1, 0%Z);
     freeCurve p h := free_at h p;
     copyCurve p h :=
       match lookup h p with
       | Some c => (fresh h, h ++ [c])
       | None => (NULL, h)
       end |}.

(** [atan2] on the axes and at the origin; elsewhere a stand-in. *)
Definition axis_atan2 (y x : double) : double :=
  if 0 <? y then M_PI / 2
  else if y <? 0 then - (M_PI / 2)
  else if x <? 0 then M_PI
  else 0.

(** Eigen's [normalize] (a vector of squared norm zero is left alone) and
    [norm]. *)
Definition libs : Libs :=
  {| atan2 := axis_atan2;
     normalize v :=
       let z := v2_x v * v2_x v + v2_y v * v2_y v in
       if 0 <? z then mkVector2d (v2_x v / sqrt z) (v2_y v / sqrt z) else v;
     norm v := sqrt (v3_x v * v3_x v + (v3_y v * v3_y v + v3_z v * v3_z v));
     uninitialized := mkVector3d nan nan nan |}.

Definition K0 : Sisl heap := kernel 0.

Definition w0 : World heap := mkWorld [] [].

(** An object of dimension 3 and order 3 without a curve. *)
Definition s0 : SplineBase := SplineBase_empty 3 0.125 3 nan nan.

(** Three points on the X axis, then five. *)
Definition three_points : list double := [0; 0; 0; 1; 0; 0; 2; 0; 0].
Definition five_points : list double :=
  [0; 0; 0; 1; 0; 0; 2; 0; 0; 3; 0; 0; 4; 0; 0].

(** The object and the world after [interpolate(three_points)]. *)
Definition fitted : SplineBase * World heap :=
  Eval vm_compute in run K0 libs [Interpolate three_points []] (s0, w0).

(** ... and after a first [getCurveLength()]. *)
Definition measured : SplineBase * World heap :=
  Eval vm_compute in run K0 libs [GetCurveLength] fitted.

(** Three times the same point, with parameters 0, 0.5 and 1: a curve of
    length zero over the domain [0, 1]. *)
Definition still : SplineBase * World heap :=
  Eval vm_compute in
    run K0 libs [Interpolate [1; 0; 0; 1; 0; 0; 1; 0; 0] [0; 0.5; 1]] (s0, w0).

End Line.

(** ** The rest of the life cycle *)

Section LifeCycle.

Context {heap : Type}.
Variable K : Sisl heap.

(** [~SplineBase()]: frees the curve when there is one; the object is gone
    afterwards, its fields are left as they were. *)
Definition destroy : M heap unit :=
  fun s w =>
    if non_null (curve s)
    then (Returns tt, s,
          mkWorld (freeCurve K (curve s) (kheap w))
                  (call_freeCurve (curve s) :: calls w))
    else (Returns tt, s, w).

(** [SplineBase(SplineBase const& source)]: every field of the source, and
    a copy of its curve when it has one. *)
Definition SplineBase_copy (source : SplineBase) (w : World heap)
    : SplineBase * World heap :=
  let '(c, w') :=
    if non_null (curve source)
    then let (c, h) := copyCurve K (curve source) (kheap w) in
         (c, mkWorld h (call_copyCurve (curve source) :: calls w))
    else (NULL, w) in
  (mkSplineBase (dimension source) c (geometric_resolution source)
     (curve_order source) (start_param source) (end_param source)
     (has_curve_length source) (curve_length source)
     (has_curvature_max source) (curvature_max source),
   w').

(** A computation that only reads: it leaves the object and the kernel's
    memory as they were and only adds to the log of calls. *)
Definition read_only {A} (m : M heap A) : Prop :=
  forall s w,
    state_of (m s w) = s /\
    kheap (world_of (m s w)) = kheap w /\
    exists cs, calls (world_of (m s w)) = cs ++ calls w.

End LifeCycle.

(** * Properties *)

Unset Implicit Arguments.

(** ** Facts of binary64 arithmetic *)

Section Binary64.

Lemma digits2_pos_bounds (p : positive) :
  2 ^ (Zpos (digits2_pos p) - 1) <= Zpos p < 2 ^ Zpos (digits2_pos p).
Proof.
  induction p as [p IH | p IH |]; cbn [digits2_pos].
  - rewrite Pos2Z.inj_succ.
    replace (Z.succ (Z.pos (digits2_pos p)) - 1)
      with (Z.succ (Z.pos (digits2_pos p) - 1)) by lia.
    rewrite !Z.pow_succ_r by lia. lia.
  - rewrite Pos2Z.inj_succ.
    replace (Z.succ (Z.pos (digits2_pos p)) - 1)
      with (Z.succ (Z.pos (digits2_pos p) - 1)) by lia.
    rewrite !Z.pow_succ_r by lia. lia.
  - simpl. lia.
Qed.

Lemma iter_xO_value (d k : positive) :
  Zpos (Pos.iter xO d k) = Zpos d * 2 ^ Zpos k.
Proof.
  induction k as [| k IH] using Pos.peano_ind.
  - simpl. lia.
  - rewrite Pos.iter_succ, Pos2Z.inj_succ, Z.pow_succ_r by lia.
    rewrite Pos2Z.inj_xO, IH. lia.
Qed.

Lemma iter_xO_digits (d k : positive) :
  digits2_pos (Pos.iter xO d k) = (digits2_pos d + k)%positive.
Proof.
  induction k as [| k IH] using Pos.peano_ind.
  - simpl. lia.
  - rewrite Pos.iter_succ. cbn [digits2_pos]. rewrite IH. lia.
Qed.

Lemma shr_fexp_canonical (m : positive) (e : Z) :
  Zpos (digits2_pos m) = 53 -> -1074 <= e ->
  shr_fexp prec emax (Zpos m) e loc_Exact =
  (Build_shr_record (Zpos m) false false, e).
Proof.
  intros Hd He. unfold shr_fexp, Zdigits2, shr_record_of_loc.
  assert (fexp prec emax (Zpos (digits2_pos m) + e) - e = 0) as ->.
  { rewrite Hd. unfold fexp, emin, prec, emax. lia. }
  reflexivity.
Qed.

(** A mantissa of 53 digits at an exponent in range is kept as it is. *)
Lemma binary_round_aux_canonical (s : bool) (m : positive) (e : Z) :
  Zpos (digits2_pos m) = 53 -> -1074 <= e <= 971 ->
  binary_round_aux prec emax s (Zpos m) e loc_Exact = S754_finite s m e.
Proof.
  intros Hd He.
  unfold binary_round_aux.
  rewrite shr_fexp_canonical by lia.
  cbn [shr_m loc_of_shr_record round_nearest_even].
  rewrite shr_fexp_canonical by lia.
  cbn [shr_m].
  replace (e <=? emax - prec) with true; trivial.
  symmetry. apply Z.leb_le. unfold emax, prec. lia.
Qed.

(** A mantissa of at most 53 digits is only shifted: no rounding. *)
Lemma binary_round_exact (s : bool) (d : positive) (e : Z) :
  Zpos (digits2_pos d) <= 53 ->
  -1074 <= e - (53 - Zpos (digits2_pos d)) -> e <= 971 ->
  exists m,
    binary_round prec emax s d e =
      S754_finite s m (e - (53 - Zpos (digits2_pos d))) /\
    Zpos m = Zpos d * 2 ^ (53 - Zpos (digits2_pos d)).
Proof.
  intros Hd Hlo Hhi.
  unfold binary_round, shl_align, fexp, emin, prec, emax.
  replace (Z.max (Z.pos (digits2_pos d) + e - 53) (3 - 1024 - 53))
    with (e - (53 - Z.pos (digits2_pos d))) by lia.
  destruct (e - (53 - Z.pos (digits2_pos d)) - e) as [| k | k] eqn:Hk; try lia.
  - exists d. replace (e - (53 - Z.pos (digits2_pos d))) with e by lia.
    split.
    + apply binary_round_aux_canonical; lia.
    + replace (53 - Z.pos (digits2_pos d)) with 0 by lia. lia.
  - exists (Pos.iter xO d k). split.
    + apply binary_round_aux_canonical.
      * rewrite iter_xO_digits. lia.
      * lia.
    + rewrite iter_xO_value. f_equal. f_equal. lia.
Qed.

Lemma valid_digits (s : bool) (m : positive) (e : Z) :
  valid_binary (S754_finite s m e) = true -> -1074 < e ->
  Zpos (digits2_pos m) = 53 /\ e <= 971.
Proof.
  unfold SpecFloat.valid_binary, bounded, canonical_mantissa, fexp, emin, prec, emax.
  intros H He. apply andb_true_iff in H. destruct H as [H1 H2].
  apply Z.eqb_eq in H1. apply Z.leb_le in H2. lia.
Qed.

Lemma SFltb_pos_finite (m1 m2 : positive) (e1 e2 : Z) :
  SFltb (S754_finite false m1 e1) (S754_finite false m2 e2) = true <->
  e1 < e2 \/ (e1 = e2 /\ Zpos m1 < Zpos m2).
Proof.
  unfold SFltb, SFcompare.
  destruct (Z.compare_spec e1 e2) as [He | He | He].
  - change (Pos.compare_cont Eq m1 m2) with (Pos.compare m1 m2).
    destruct (Pos.compare_spec m1 m2);
      split; intros; try discriminate; try lia; trivial.
  - split; intros; trivial. lia.
  - split; intros; try discriminate. lia.
Qed.

Lemma SFleb_pos_finite (m1 m2 : positive) (e1 e2 : Z) :
  SFleb (S754_finite false m1 e1) (S754_finite false m2 e2) = true <->
  e1 < e2 \/ (e1 = e2 /\ Zpos m1 <= Zpos m2).
Proof.
  unfold SFleb, SFcompare.
  destruct (Z.compare_spec e1 e2) as [He | He | He].
  - change (Pos.compare_cont Eq m1 m2) with (Pos.compare m1 m2).
    destruct (Pos.compare_spec m1 m2);
      split; intros; try discriminate; try lia; trivial.
  - split; intros; trivial. lia.
  - split; intros; try discriminate. lia.
Qed.

Lemma SFltb_neg_finite (m1 m2 : positive) (e1 e2 : Z) :
  SFltb (S754_finite true m1 e1) (S754_finite true m2 e2) = true <->
  e2 < e1 \/ (e1 = e2 /\ Zpos m2 < Zpos m1).
Proof.
  unfold SFltb, SFcompare.
  destruct (Z.compare_spec e1 e2) as [He | He | He].
  - change (Pos.compare_cont Eq m1 m2) with (Pos.compare m1 m2).
    destruct (Pos.compare_spec m1 m2); cbn [CompOpp];
      split; intros; try discriminate; try lia; trivial.
  - split; intros; try discriminate; lia.
  - split; intros; trivial; lia.
Qed.

(** The mantissa of [M_PI]: [M_PI] is [pi_m * 2^-51]. *)
Definition pi_m : positive := 7074237752028440.

(** A number below [M_PI] in magnitude, given at the exponent of [M_PI] or
    of [2 * M_PI], rounds without error and stays between [-M_PI] and
    [M_PI]. *)
Lemma round_below_pi (s : bool) (d : positive) (e : Z) :
  (e = -51 /\ Zpos d < Zpos pi_m) \/ (e = -50 /\ 2 * Zpos d < Zpos pi_m) ->
  SFltb (S754_finite true pi_m (-51)) (binary_round prec emax s d e) = true /\
  SFleb (binary_round prec emax s d e) (S754_finite false pi_m (-51)) = true.
Proof.
  intros H.
  pose proof (digits2_pos_bounds d) as B.
  pose proof (Pos2Z.is_pos (digits2_pos d)) as Hpos.
  assert (Zpos (digits2_pos d) <= 53 /\ (e = -50 -> Zpos (digits2_pos d) <= 52))
    as [Hd Hd'].
  { split; [| intros He].
    - destruct (Z.leb_spec (Zpos (digits2_pos d)) 53) as [|Hgt]; trivial.
      assert (2 ^ 53 <= 2 ^ (Zpos (digits2_pos d) - 1))
        by (apply Z.pow_le_mono_r; lia).
      unfold pi_m in H. lia.
    - destruct (Z.leb_spec (Zpos (digits2_pos d)) 52) as [|Hgt]; trivial.
      assert (2 ^ 52 <= 2 ^ (Zpos (digits2_pos d) - 1))
        by (apply Z.pow_le_mono_r; lia).
      unfold pi_m in H. lia. }
  destruct (binary_round_exact s d e) as [m [Hr Hm]]; try lia.
  rewrite Hr. clear Hr.
  assert (e - (53 - Zpos (digits2_pos d)) < -51 \/
          (e - (53 - Zpos (digits2_pos d)) = -51 /\ Zpos m < Zpos pi_m)) as HE.
  { destruct (Z.ltb_spec (e - (53 - Zpos (digits2_pos d))) (-51)) as [|Hge];
      [left; trivial | right].
    unfold pi_m in *. destruct H as [[He Hv] | [He Hv]].
    - replace (53 - Zpos (digits2_pos d)) with 0 in Hm by lia.
      change (2 ^ 0) with 1 in Hm. clear B. split; lia.
    - specialize (Hd' He).
      replace (53 - Zpos (digits2_pos d)) with 1 in Hm by lia.
      change (2 ^ 1) with 2 in Hm. clear B. split; lia. }
  generalize dependent (e - (53 - Zpos (digits2_pos d))). intros E HE. clear - HE.
  destruct s.
  - split; [| reflexivity]. apply SFltb_neg_finite. lia.
  - split; [reflexivity |]. apply SFleb_pos_finite. lia.
Qed.

Lemma wrap_down_range_SF (x : spec_float) :
  valid_binary x = true ->
  SFltb (S754_finite false pi_m (-51)) x = true ->
  SFltb x (S754_finite false 5305678314021330 (-49)) = true ->
  SFltb (S754_finite true pi_m (-51))
        (SF64sub x (S754_finite false pi_m (-50))) = true /\
  SFleb (SF64sub x (S754_finite false pi_m (-50)))
        (S754_finite false pi_m (-51)) = true.
Proof.
  intros Hv Hlo Hhi.
  destruct x as [s | s | | s m e]; try (destruct s; discriminate); try discriminate.
  destruct s; [discriminate |].
  apply SFltb_pos_finite in Hlo, Hhi.
  destruct (valid_digits _ _ _ Hv) as [Hd _]; [lia |].
  pose proof (digits2_pos_bounds m) as B. rewrite Hd in B.
  change (2 ^ (53 - 1)) with 4503599627370496 in B.
  change (2 ^ 53) with 9007199254740992 in B.
  unfold SF64sub, SFsub, cond_Zopp.
  assert (e = -51 \/ e = -50 \/ e = -49) as [-> | [-> | ->]] by lia.
  - change (Z.min (-51) (-50)) with (-51). cbv zeta.
    change (fst (shl_align m (-51) (-51))) with m.
    change (fst (shl_align pi_m (-50) (-51))) with (pi_m~0)%positive.
    destruct (Zpos m - Zpos pi_m~0) as [| d | d] eqn:Hdiff;
      unfold pi_m in *; try lia.
    apply round_below_pi. unfold pi_m. lia.
  - change (Z.min (-50) (-50)) with (-50). cbv zeta.
    change (fst (shl_align m (-50) (-50))) with m.
    change (fst (shl_align pi_m (-50) (-50))) with pi_m.
    destruct (Zpos m - Zpos pi_m) as [| d | d] eqn:Hdiff; unfold pi_m in *.
    + split; reflexivity.
    + apply round_below_pi. unfold pi_m. lia.
    + apply round_below_pi. unfold pi_m. lia.
  - change (Z.min (-49) (-50)) with (-50). cbv zeta.
    change (fst (shl_align m (-49) (-50))) with (m~0)%positive.
    change (fst (shl_align pi_m (-50) (-50))) with pi_m.
    destruct (Zpos m~0 - Zpos pi_m) as [| d | d] eqn:Hdiff;
      unfold pi_m in *; try lia.
    apply round_below_pi. unfold pi_m. lia.
Qed.

(** Between [M_PI] and [3 * M_PI], taking [2 * M_PI] off is exact and lands
    strictly above [-M_PI] and at most at [M_PI]. *)
Lemma wrap_down_range (e : float) :
  (M_PI <? e)%float = true -> (e <? 3 * M_PI)%float = true ->
  (- M_PI <? e - 2 * M_PI)%float = true /\
  (e - 2 * M_PI <=? M_PI)%float = true.
Proof.
  rewrite !ltb_spec, leb_spec, sub_spec.
  change (Prim2SF M_PI) with (S754_finite false pi_m (-51)).
  change (Prim2SF (3 * M_PI)) with (S754_finite false 5305678314021330 (-49)).
  change (Prim2SF (- M_PI)) with (S754_finite true pi_m (-51)).
  change (Prim2SF (2 * M_PI)) with (S754_finite false pi_m (-50)).
  apply wrap_down_range_SF, Prim2SF_valid.
Qed.

(** A quotient by a zero is an infinity or not a number. *)
Lemma div_by_zero (x z : float) :
  (z =? 0)%float = true ->
  is_infinity (x / z) || is_nan (x / z) = true.
Proof.
  intros Hz. rewrite eqb_spec in Hz.
  change (Prim2SF 0) with (S754_zero false) in Hz.
  unfold is_infinity, is_nan.
  rewrite !eqb_spec, abs_spec, div_spec.
  change (Prim2SF infinity) with (S754_infinity false).
  destruct (Prim2SF z) as [sz | sz | | sz mz ez];
    try discriminate; try (destruct sz; discriminate).
  destruct (Prim2SF x) as [sx | sx | | sx mx ex]; reflexivity.
Qed.






End Binary64.

(** ** What the methods keep *)

Section Laws.

Context {heap : Type}.
Variable K : Sisl heap.
Variable L : Libs.

(** [keeps P m]: whatever its outcome, [m] leaves an object that satisfies
    [P] satisfying [P]. *)
Definition keeps (P : SplineBase -> Prop) {A} (m : M heap A) : Prop :=
  forall s w, P s -> P (state_of (m s w)).

Lemma keeps_ret P {A} (a : A) : keeps P (ret a).
Proof. intros s w H. exact H. Qed.

Lemma keeps_throw P {A} e : keeps P (@throw heap A e).
Proof. intros s w H. exact H. Qed.

Lemma keeps_undefined P {A} : keeps P (@undefined heap A).
Proof. intros s w H. exact H. Qed.

Lemma keeps_out_of_fuel P {A} : keeps P (@out_of_fuel heap A).
Proof. intros s w H. exact H. Qed.

Lemma keeps_this P : keeps P (@this heap).
Proof. intros s w H. exact H. Qed.

Lemma keeps_query P {A} c (f : heap -> A) : keeps P (query c f).
Proof. intros s w H. exact H. Qed.

Lemma keeps_command P {A} c (f : heap -> A * heap) : keeps P (command c f).
Proof. intros s w H. unfold command. destruct (f (kheap w)). exact H. Qed.

Lemma keeps_update P (f : SplineBase -> SplineBase) :
  (forall s, P s -> P (f s)) -> keeps P (@update heap f).
Proof. intros Hf s w H. apply Hf, H. Qed.

Lemma keeps_bind P {A B} (m : M heap A) (k : A -> M heap B) :
  keeps P m -> (forall a, keeps P (k a)) -> keeps P (bind m k).
Proof.
  intros Hm Hk s w H. unfold bind.
  specialize (Hm s w H). unfold state_of in *.
  destruct (m s w) as [[[a | e | |] s'] w']; simpl in *; trivial.
  apply Hk, Hm.
Qed.

(** What happens to the object is [P]-preserving when [P] only reads the
    cache and the computation is built from the steps above. *)
Ltac keeps_step :=
  first
    [ apply keeps_ret | apply keeps_throw | apply keeps_undefined
    | apply keeps_out_of_fuel | apply keeps_this | apply keeps_query
    | apply keeps_command
    | apply keeps_update; intros [] ?; assumption
    | apply keeps_bind; [| intros ?]
    | match goal with
      | |- keeps _ (if ?b then _ else _) => destruct b
      | |- keeps _ (let (_, _) := ?p in _) => destruct p
      | |- keeps _ (match ?l with nil => _ | cons _ _ => _ end) => destruct l
      | |- keeps _ (match ?o with Some _ => _ | None => _ end) => destruct o
      end ].

Ltac keeps_auto := repeat keeps_step.

(** *** The whole cache survives the three replacements *)

Lemma interpolate_keeps_cache c points parameters :
  keeps (fun s => cache s = c) (interpolate K points parameters).
Proof. unfold interpolate. keeps_auto. Qed.

Lemma clear_keeps_cache c : keeps (fun s => cache s = c) (clear K).
Proof. unfold clear. keeps_auto. Qed.

Lemma simplify_keeps_cache c tolerance :
  keeps (fun s => cache s = c) (simplify K tolerance).
Proof. unfold simplify. keeps_auto. Qed.

Lemma simplify_default_keeps_cache c :
  keeps (fun s => cache s = c) (simplify_default K).
Proof.
  unfold simplify_default. keeps_auto.
Qed.

(** *** A computed length survives every method *)

Definition length_is (l : double) (s : SplineBase) : Prop :=
  has_curve_length s = true /\ curve_length s = l.

Definition curvature_max_is (c : double) (s : SplineBase) : Prop :=
  has_curvature_max s = true /\ curvature_max s = c.

Lemma getCurveLength_cached (s : SplineBase) (w : World heap) :
  has_curve_length s = true ->
  getCurveLength K s w = (Returns (curve_length s), s, w).
Proof.
  intros H. unfold getCurveLength, bind, this. rewrite H. reflexivity.
Qed.

Lemma getCurvatureMax_cached (fuel : nat) (s : SplineBase) (w : World heap) :
  has_curvature_max s = true ->
  getCurvatureMax K fuel s w = (Returns (curvature_max s), s, w).
Proof.
  intros H. unfold getCurvatureMax, bind, this. rewrite H. reflexivity.
Qed.

Lemma getCurveLength_keeps_length l : keeps (length_is l) (getCurveLength K).
Proof.
  intros s w [H1 H2]. rewrite getCurveLength_cached by exact H1.
  split; assumption.
Qed.

Lemma getCurveLength_keeps_curvature_max c :
  keeps (curvature_max_is c) (getCurveLength K).
Proof. unfold getCurveLength. keeps_auto. Qed.

Lemma getCurvatureMax_keeps_curvature_max c fuel :
  keeps (curvature_max_is c) (getCurvatureMax K fuel).
Proof.
  intros s w [H1 H2]. rewrite getCurvatureMax_cached by exact H1.
  split; assumption.
Qed.

(** The methods that touch neither cache entry keep any property of the
    cache. *)
Section CacheReaders.

Variable P : SplineBase -> Prop.
Hypothesis P_set_curve : forall c s, P s -> P (set_curve c s).
Hypothesis P_set_start : forall x s, P s -> P (set_start_param x s).
Hypothesis P_set_end : forall x s, P s -> P (set_end_param x s).

Ltac reader :=
  repeat first
    [ apply keeps_update; intros; solve [auto] | keeps_step ].

Lemma getPoint_keeps p : keeps P (getPoint K p).
Proof. unfold getPoint. reader. Qed.

Lemma getCurvature_keeps p : keeps P (getCurvature K p).
Proof. unfold getCurvature. reader. Qed.

Lemma getVariationOfCurvature_keeps p : keeps P (getVariationOfCurvature K p).
Proof. unfold getVariationOfCurvature. reader. Qed.

Lemma interpolate_keeps points parameters :
  keeps P (interpolate K points parameters).
Proof. unfold interpolate. reader. Qed.

Lemma findClosestPoints_keeps pt ps cs g :
  keeps P (findClosestPoints K pt ps cs g).
Proof. unfold findClosestPoints. reader. Qed.

Lemma findOneClosestPoint_keeps pt g : keeps P (findOneClosestPoint K pt g).
Proof.
  unfold findOneClosestPoint. apply keeps_bind.
  - apply findClosestPoints_keeps.
  - intros [points curves]. reader.
Qed.

Lemma localClosestPointSearch_keeps pt gu a b g :
  keeps P (localClosestPointSearch K pt gu a b g).
Proof. unfold localClosestPointSearch. reader. Qed.

Lemma clear_keeps : keeps P (clear K).
Proof. unfold clear. reader. Qed.

Lemma simplify_keeps tolerance : keeps P (simplify K tolerance).
Proof. unfold simplify. reader. Qed.

Lemma simplify_default_keeps : keeps P (simplify_default K).
Proof. unfold simplify_default. reader. Qed.

Lemma getFrenetFrame_keeps p : keeps P (getFrenetFrame K p).
Proof. unfold getFrenetFrame. reader. Qed.

Lemma getHeading_keeps p : keeps P (getHeading K L p).
Proof.
  unfold getHeading. apply keeps_bind; [apply getFrenetFrame_keeps |].
  intros frame. reader.
Qed.

Lemma headingError_keeps a p : keeps P (headingError K L a p).
Proof.
  unfold headingError. apply keeps_bind; [apply getHeading_keeps |].
  intros h. reader.
Qed.

Lemma distanceError_keeps pt p : keeps P (distanceError K L pt p).
Proof.
  unfold distanceError. apply keeps_bind; [apply getPoint_keeps |].
  intros written. destruct (write3 _ written); [| apply keeps_undefined].
  apply keeps_bind; [apply getHeading_keeps |]. intros h. reader.
Qed.

(** With the two cached getters taken as given, the composed methods keep
    [P]. *)
Hypothesis P_getCurveLength : keeps P (getCurveLength K).
Hypothesis P_set_curvature_max : forall x s, P s -> P (set_curvature_max x s).
Hypothesis P_set_has_curvature_max :
  forall s, P s -> P (set_has_curvature_max true s).

Lemma getUnitParameter_keeps : keeps P (getUnitParameter K).
Proof.
  unfold getUnitParameter. apply keeps_bind; [exact P_getCurveLength |].
  intros len. reader.
Qed.

Lemma poseError_keeps o pt a st tol : keeps P (poseError K L o pt a st tol).
Proof.
  unfold poseError, getGeometricResolution.
  apply keeps_bind; [apply getUnitParameter_keeps | intros u].
  apply keeps_bind; [reader | intros g].
  apply keeps_bind; [apply localClosestPointSearch_keeps | intros param].
  destruct o.
  - apply keeps_bind; [apply distanceError_keeps | intros d].
    apply keeps_bind; [apply headingError_keeps | intros h].
    reader.
  - apply keeps_bind; [apply headingError_keeps | intros h].
    apply keeps_bind; [apply distanceError_keeps | intros d].
    reader.
Qed.

Lemma scanCurvature_keeps fuel : forall p delPara,
  keeps P (scanCurvature K fuel p delPara).
Proof.
  induction fuel as [| fuel IH]; intros p delPara; cbn [scanCurvature].
  - reader.
  - apply keeps_bind; [reader | intros s0].
    destruct (p <=? end_param s0)%float; [| reader].
    apply keeps_bind; [apply getCurvature_keeps | intros c].
    apply keeps_bind; [reader | intros s1].
    apply keeps_bind; [| intros _; apply IH].
    destruct (curvature_max s1 <? c)%float; reader.
Qed.

End CacheReaders.

End Laws.

(** ** The cache *)

Section Cache.

Context {heap : Type}.
Variable K : Sisl heap.
Variable L : Libs.

Lemma fst_effect {A} (m : M heap A) (sw : SplineBase * World heap) :
  fst (effect m sw) = state_of (m (fst sw) (snd sw)).
Proof.
  unfold effect, state_of. destruct (m (fst sw) (snd sw)) as [[r s'] w'].
  reflexivity.
Qed.

Lemma length_is_set_curve l c s : length_is l s -> length_is l (set_curve c s).
Proof. destruct s; exact (fun H => H). Qed.
Lemma length_is_set_start l x s : length_is l s -> length_is l (set_start_param x s).
Proof. destruct s; exact (fun H => H). Qed.
Lemma length_is_set_end l x s : length_is l s -> length_is l (set_end_param x s).
Proof. destruct s; exact (fun H => H). Qed.
Lemma length_is_set_curvature_max l x s :
  length_is l s -> length_is l (set_curvature_max x s).
Proof. destruct s; exact (fun H => H). Qed.
Lemma length_is_set_has_curvature_max l s :
  length_is l s -> length_is l (set_has_curvature_max true s).
Proof. destruct s; exact (fun H => H). Qed.

Lemma curvature_max_is_set_curve c p s :
  curvature_max_is c s -> curvature_max_is c (set_curve p s).
Proof. destruct s; exact (fun H => H). Qed.
Lemma curvature_max_is_set_start c x s :
  curvature_max_is c s -> curvature_max_is c (set_start_param x s).
Proof. destruct s; exact (fun H => H). Qed.
Lemma curvature_max_is_set_end c x s :
  curvature_max_is c s -> curvature_max_is c (set_end_param x s).
Proof. destruct s; exact (fun H => H). Qed.

Lemma getCurvatureMax_keeps_length l fuel :
  keeps (length_is l) (getCurvatureMax K fuel).
Proof.
  unfold getCurvatureMax.
  apply keeps_bind; [apply keeps_this | intros s0].
  destruct (has_curvature_max s0); [apply keeps_ret |].
  apply keeps_bind.
  { apply getUnitParameter_keeps; auto using length_is_set_curve,
      getCurveLength_keeps_length. }
  intros u. apply keeps_bind; [apply keeps_this | intros s1].
  apply keeps_bind.
  { apply keeps_update. intros s. apply length_is_set_curvature_max. }
  intros _. apply keeps_bind.
  { apply scanCurvature_keeps; auto using length_is_set_curvature_max. }
  intros _. apply keeps_bind.
  { apply keeps_update. intros s. apply length_is_set_has_curvature_max. }
  intros _. apply keeps_bind; [apply keeps_this | intros s2; apply keeps_ret].
Qed.

Lemma call_keeps_length l (m : method) (sw : SplineBase * World heap) :
  length_is l (fst sw) -> length_is l (fst (call K L m sw)).
Proof.
  intros H. destruct m; cbn [call]; rewrite fst_effect.
  - apply getPoint_keeps, H.
  - apply getCurvature_keeps, H.
  - apply getVariationOfCurvature_keeps, H.
  - apply getCurveLength_keeps_length, H.
  - apply getUnitParameter_keeps;
      auto using getCurveLength_keeps_length.
  - apply getCurvatureMax_keeps_length, H.
  - apply interpolate_keeps;
      auto using length_is_set_curve, length_is_set_start, length_is_set_end.
  - apply findOneClosestPoint_keeps, H.
  - apply findClosestPoints_keeps, H.
  - apply localClosestPointSearch_keeps, H.
  - apply clear_keeps; auto using length_is_set_curve.
  - apply simplify_keeps; auto using length_is_set_curve.
  - apply simplify_default_keeps; auto using length_is_set_curve.
  - apply getFrenetFrame_keeps, H.
  - apply getHeading_keeps, H.
  - apply headingError_keeps, H.
  - apply distanceError_keeps, H.
  - apply poseError_keeps; auto using getCurveLength_keeps_length.
Qed.

Lemma call_keeps_curvature_max c (m : method) (sw : SplineBase * World heap) :
  curvature_max_is c (fst sw) -> curvature_max_is c (fst (call K L m sw)).
Proof.
  intros H. destruct m; cbn [call]; rewrite fst_effect.
  - apply getPoint_keeps, H.
  - apply getCurvature_keeps, H.
  - apply getVariationOfCurvature_keeps, H.
  - apply getCurveLength_keeps_curvature_max, H.
  - apply getUnitParameter_keeps;
      auto using getCurveLength_keeps_curvature_max.
  - apply getCurvatureMax_keeps_curvature_max, H.
  - apply interpolate_keeps;
      auto using curvature_max_is_set_curve, curvature_max_is_set_start,
        curvature_max_is_set_end.
  - apply findOneClosestPoint_keeps, H.
  - apply findClosestPoints_keeps, H.
  - apply localClosestPointSearch_keeps, H.
  - apply clear_keeps; auto using curvature_max_is_set_curve.
  - apply simplify_keeps; auto using curvature_max_is_set_curve.
  - apply simplify_default_keeps; auto using curvature_max_is_set_curve.
  - apply getFrenetFrame_keeps, H.
  - apply getHeading_keeps, H.
  - apply headingError_keeps, H.
  - apply distanceError_keeps, H.
  - apply poseError_keeps; auto using getCurveLength_keeps_curvature_max.
Qed.

Lemma run_keeps (P : SplineBase -> Prop) :
  (forall m sw, P (fst sw) -> P (fst (call K L m sw))) ->
  forall ms sw, P (fst sw) -> P (fst (run K L ms sw)).
Proof.
  intros Hcall ms. induction ms as [| m ms IH]; intros sw H; cbn [run fold_left].
  - exact H.
  - apply IH, Hcall, H.
Qed.

Lemma store_set_same (a : nat) (x : SplineBase) (st : Store) :
  (a < List.length st)%nat -> nth_error (store_set a x st) a = Some x.
Proof.
  revert a. induction st as [| y st IH]; intros a H; cbn in H; [lia |].
  destruct a as [| a]; cbn; [reflexivity | apply IH; lia].
Qed.

Lemma store_set_other (a b : nat) (x : SplineBase) (st : Store) :
  a <> b -> nth_error (store_set a x st) b = nth_error st b.
Proof.
  revert a b. induction st as [| y st IH]; intros a b H.
  - destruct a; reflexivity.
  - destruct a as [| a], b as [| b]; cbn; try reflexivity; try contradiction.
    apply IH. lia.
Qed.

Lemma store_set_length (a : nat) (x : SplineBase) (st : Store) :
  List.length (store_set a x st) = List.length st.
Proof.
  revert a. induction st as [| y st IH]; intros a; [destruct a; reflexivity |].
  destruct a as [| a]; cbn; [reflexivity | rewrite IH; reflexivity].
Qed.

(** A property of objects that the admitted calls keep is kept, for the
    object at [a], by every program of allowed steps. *)
Lemma do_step_keeps (P : SplineBase -> Prop) (ok : method -> bool) (a : nat) :
  (forall m sw, ok m = true -> P (fst sw) -> P (fst (call K L m sw))) ->
  forall x st w s,
    allowed ok a x = true -> nth_error st a = Some s -> P s ->
    exists s', nth_error (fst (do_step K L x (st, w))) a = Some s' /\ P s'.
Proof.
  intros Hcall x st w s Hx Ha HP.
  assert (a < List.length st)%nat as Hlen.
  { apply nth_error_Some. rewrite Ha. discriminate. }
  destruct x as [b m | t src]; cbn [do_step allowed fst snd] in *.
  - destruct (nth_error st b) as [sb |] eqn:Hb; [| exists s; split; assumption].
    pose proof (Hcall m (sb, w)) as Hm. cbn [fst] in Hm.
    destruct (call K L m (sb, w)) as [s1 w1]. cbn [fst] in *.
    destruct (Nat.eqb_spec b a) as [-> | Hne].
    + rewrite Ha in Hb. inversion Hb; subst sb. cbn [negb orb] in Hx.
      exists s1. split; [apply store_set_same, Hlen | auto].
    + exists s. split; [rewrite store_set_other by exact Hne |]; assumption.
  - unfold assign.
    destruct (nth_error st t) as [x |] eqn:Ht; [| exists s; split; assumption].
    destruct (nth_error st src) as [y |] eqn:Hs; [| exists s; split; assumption].
    destruct (Nat.eqb src t); [exists s; split; assumption |].
    rewrite orb_false_r in Hx. apply negb_true_iff, Nat.eqb_neq in Hx.
    destruct (non_null (curve y));
      [destruct (copyCurve K (curve y) (kheap w)) as [c h] |];
      cbn [fst]; exists s; (split; [rewrite store_set_other by exact Hx |]);
      assumption.
Qed.

Lemma exec_keeps (P : SplineBase -> Prop) (ok : method -> bool) (a : nat) :
  (forall m sw, ok m = true -> P (fst sw) -> P (fst (call K L m sw))) ->
  forall steps st w s,
    forallb (allowed ok a) steps = true -> nth_error st a = Some s -> P s ->
    exists s', nth_error (fst (exec K L steps (st, w))) a = Some s' /\ P s'.
Proof.
  intros Hcall steps.
  induction steps as [| x steps IH]; intros st w s H Ha HP; cbn [exec fold_left].
  - exists s. split; assumption.
  - cbn [forallb] in H. apply andb_true_iff in H. destruct H as [Hx Hrest].
    destruct (do_step_keeps P ok a Hcall x st w s Hx Ha HP) as (s1 & Ha1 & HP1).
    destruct (do_step K L x (st, w)) as [st1 w1]. cbn [fst] in Ha1.
    exact (IH st1 w1 s1 Hrest Ha1 HP1).
Qed.

(** C1 (as amended).  No member function resets the cache: [interpolate],
    both [simplify] and [clear] leave the two flags and the two cached
    values as they found them, whatever their outcome.  A length or a
    maximal curvature, once computed, stays flagged and unchanged for the
    object through every later program of member-function calls (on it or
    on other objects, replacements of its curve included) and assignments,
    as long as no other object is assigned to it; such an assignment
    overwrites both flags and both values with those of the source. *)
Theorem cache_outlives_replacement (s : SplineBase) (w : World heap) :
  (forall points parameters,
     cache (state_of (interpolate K points parameters s w)) = cache s) /\
  (forall tolerance, cache (state_of (simplify K tolerance s w)) = cache s) /\
  cache (state_of (simplify_default K s w)) = cache s /\
  cache (state_of (clear K s w)) = cache s /\
  (forall steps a st,
     nth_error st a = Some s -> forallb (spares a) steps = true ->
     has_curve_length s = true ->
     exists s', nth_error (fst (exec K L steps (st, w))) a = Some s' /\
                length_is (curve_length s) s') /\
  (forall steps a st,
     nth_error st a = Some s -> forallb (spares a) steps = true ->
     has_curvature_max s = true ->
     exists s', nth_error (fst (exec K L steps (st, w))) a = Some s' /\
                curvature_max_is (curvature_max s) s') /\
  (forall this_ source st src,
     this_ <> source ->
     nth_error st this_ = Some s -> nth_error st source = Some src ->
     exists s',
       nth_error (fst (do_step K L (Assignment this_ source) (st, w))) this_
         = Some s' /\
       cache s' = cache src).
Proof.
  split; [| split; [| split; [| split; [| split; [| split]]]]].
  - intros points parameters. now apply interpolate_keeps_cache.
  - intros tolerance. now apply simplify_keeps_cache.
  - now apply simplify_default_keeps_cache.
  - now apply clear_keeps_cache.
  - intros steps a st Ha Hsteps H.
    apply (exec_keeps (length_is (curve_length s)) (fun _ => true) a
             (fun m sw _ => call_keeps_length _ m sw) steps st w s Hsteps Ha).
    split; trivial.
  - intros steps a st Ha Hsteps H.
    apply (exec_keeps (curvature_max_is (curvature_max s)) (fun _ => true) a
             (fun m sw _ => call_keeps_curvature_max _ m sw) steps st w s
             Hsteps Ha).
    split; trivial.
  - intros this_ source st src Hne Ht Hs.
    assert (this_ < List.length st)%nat as Hlen.
    { apply nth_error_Some. rewrite Ht. discriminate. }
    cbn [do_step fst snd]. unfold assign. rewrite Ht, Hs.
    replace (Nat.eqb source this_) with false
      by (symmetry; apply Nat.eqb_neq; congruence).
    destruct (non_null (curve src));
      [destruct (copyCurve K (curve src) (kheap w)) as [c h] |];
      cbn [fst]; eexists; (split; [apply store_set_same, Hlen | reflexivity]).
Qed.

(** C9 (as amended).  The length is cached for the object, not for the
    curve.  On an object whose flag [has_curve_length] is not set,
    [getCurveLength] calls the kernel's [s1240] once, with
    [geometric_resolution] as the tolerance; when the kernel reports status
    0 the length it gave is returned and cached.  After any program of
    calls (on this or other objects, [interpolate], [simplify] and [clear]
    included) and assignments that assigns no other object to this one, a
    further [getCurveLength] on it returns that same length and changes
    neither the object nor the world: no kernel call. *)
Theorem getCurveLength_idempotent (a : nat) (st : Store) (s : SplineBase)
    (w : World heap) (steps : list step) :
  nth_error st a = Some s ->
  has_curve_length s = false ->
  snd (s1240 K (kheap w) (curve s) (geometric_resolution s)) = 0 ->
  forallb (spares a) steps = true ->
  let len := fst (s1240 K (kheap w) (curve s) (geometric_resolution s)) in
  let first := getCurveLength K s w in
  let later := exec K L steps (store_set a (state_of first) st, world_of first) in
  result_of first = Returns len /\
  calls (world_of first) =
    call_s1240 (curve s) (geometric_resolution s) :: calls w /\
  kheap (world_of first) = kheap w /\
  cache (state_of first) = (true, len, has_curvature_max s, curvature_max s) /\
  exists s',
    nth_error (fst later) a = Some s' /\
    getCurveLength K s' (snd later) = (Returns len, s', snd later).
Proof.
  intros Ha Hflag Hstatus Hsteps len first later.
  assert (first =
          (Returns len, set_has_curve_length true (set_curve_length len s),
           mkWorld (kheap w) (call_s1240 (curve s) (geometric_resolution s) :: calls w)))
    as Hfirst.
  { unfold first, len, getCurveLength, bind, this, query, update, ret.
    rewrite Hflag.
    destruct (s1240 K (kheap w) (curve s) (geometric_resolution s)) as [l st'].
    simpl in Hstatus. subst st'. reflexivity. }
  assert (a < List.length st)%nat as Hlen.
  { apply nth_error_Some. rewrite Ha. discriminate. }
  destruct (exec_keeps (length_is len) (fun _ => true) a
              (fun m sw _ => call_keeps_length len m sw)
              steps (store_set a (state_of first) st) (world_of first)
              (state_of first) Hsteps (store_set_same a _ st Hlen))
    as (s' & Hs' & H1 & H2).
  { rewrite Hfirst. split; reflexivity. }
  rewrite Hfirst. split; [| split; [| split; [| split]]]; try reflexivity.
  exists s'. fold first in later. split; [exact Hs' |].
  rewrite getCurveLength_cached by exact H1. rewrite H2. reflexivity.
Qed.

End Cache.

(** ** Queries, searches and the error model *)

Section Queries.

Context {heap : Type}.
Variable K : Sisl heap.
Variable L : Libs.

(** The world after one more kernel call. *)
Definition logged (c : kernel_call) (w : World heap) : World heap :=
  mkWorld (kheap w) (c :: calls w).

Lemma bind_returns {A B} (m : M heap A) (k : A -> M heap B)
    {s s' : SplineBase} {w w' : World heap} {a : A} :
  m s w = (Returns a, s', w') -> bind m k s w = k a s' w'.
Proof. intros H. unfold bind. rewrite H. reflexivity. Qed.

(** The three guarded evaluators refuse a parameter outside the domain
    before anything else happens. *)
Lemma guarded_evaluators_refuse (s : SplineBase) (w : World heap) (p : double) :
  outside s p = true ->
  getPoint K p s w = (Throws (out_of_range in_range_msg), s, w) /\
  getCurvature K p s w = (Throws (out_of_range in_range_msg), s, w) /\
  getVariationOfCurvature K p s w = (Throws (out_of_range in_range_msg), s, w).
Proof.
  intros H. unfold getPoint, getCurvature, getVariationOfCurvature, bind, this.
  rewrite H. repeat split.
Qed.

Lemma getFrenetFrame_returns (s : SplineBase) (w : World heap) (p : double) :
  getFrenetFrame K p s w =
  (let '(t, n, b, _) := s2559 K (kheap w) (curve s) p in
   Returns (mkMatrix3d t n b), s, logged (call_s2559 (curve s) p) w).
Proof.
  unfold getFrenetFrame, bind, this, query, ret, logged.
  destruct (s2559 K (kheap w) (curve s) p) as [[[t n] b] st]. reflexivity.
Qed.

Lemma getHeading_returns (s : SplineBase) (w : World heap) (p : double) :
  getHeading K L p s w =
  (Returns (heading_at K L s w p), s, logged (call_s2559 (curve s) p) w).
Proof.
  unfold getHeading, bind. rewrite getFrenetFrame_returns.
  unfold heading_at, ret.
  destruct (s2559 K (kheap w) (curve s) p) as [[[t n] b] st]. reflexivity.
Qed.

Lemma headingError_returns (s : SplineBase) (w : World heap) (a p : double) :
  headingError K L a p s w =
  (Returns (wrap (a - heading_at K L s w p)%float), s,
   logged (call_s2559 (curve s) p) w).
Proof.
  unfold headingError, bind. rewrite getHeading_returns. unfold wrap, ret.
  destruct (M_PI <? a - heading_at K L s w p)%float; trivial.
  destruct (a - heading_at K L s w p <? - M_PI)%float; trivial.
Qed.

(** [getCurveLength] writes the cache only. *)
Lemma getCurveLength_frame (s : SplineBase) (w : World heap) :
  let s' := state_of (getCurveLength K s w) in
  dimension s' = dimension s /\ curve s' = curve s /\
  geometric_resolution s' = geometric_resolution s /\
  curve_order s' = curve_order s /\
  start_param s' = start_param s /\ end_param s' = end_param s.
Proof.
  unfold getCurveLength, bind, this, query, update, ret, throw, state_of.
  destruct (has_curve_length s); [repeat split |].
  destruct (s1240 K (kheap w) (curve s) (geometric_resolution s)) as [l st].
  destruct (negb (st =? 0)); repeat split.
Qed.

(** C3 (as amended).  [getUnitParameter] has no check of the length: when
    [getCurveLength] returns [len], it returns the binary64 quotient
    [(end_param - start_param) / len], which for a zero [len] is an
    infinity or not a number; it fails only as [getCurveLength] fails. *)
Theorem getUnitParameter_quotient (s : SplineBase) (w : World heap) :
  let '(r, s', w') := getCurveLength K s w in
  match r with
  | Returns len =>
      let q := ((end_param s - start_param s) / len)%float in
      getUnitParameter K s w = (Returns q, s', w') /\
      ((len =? 0)%float = true -> is_infinity q || is_nan q = true)
  | _ => getUnitParameter K s w = (r, s', w')
  end.
Proof.
  pose proof (getCurveLength_frame s w) as F.
  unfold getUnitParameter, bind. unfold state_of in F.
  destruct (getCurveLength K s w) as [[[len | e | |] s'] w']; trivial.
  cbn [fst snd] in F. destruct F as (_ & _ & _ & _ & Hs & He).
  unfold this, ret. rewrite Hs, He. split; trivial.
  apply div_by_zero.
Qed.

(** C4.  When the unit parameter [u] is available, [poseError] runs the
    local search on the window from [_st_para] to [_st_para + u * _len_tol],
    with [_st_para] as the guess and the object's geometric resolution as
    the tolerance; when the search gives [param] and the two errors at
    [param], computed one after the other in the order the compiler chose,
    are [d] and [h], it returns the vector [(d, h, param)]. *)
Theorem poseError_composes (order : evaluation_order) (_pt : Vector3d)
    (_actZRot _st_para _len_tol : double)
    (s s1 s2 s3 s4 : SplineBase) (w w1 w2 w3 w4 : World heap)
    (u param d h : double) :
  getUnitParameter K s w = (Returns u, s1, w1) ->
  localClosestPointSearch K (data _pt) _st_para _st_para
    (_st_para + u * _len_tol)%float (geometric_resolution s) s1 w1
    = (Returns param, s2, w2) ->
  match order with
  | LeftToRight =>
      distanceError K L _pt param s2 w2 = (Returns d, s3, w3) /\
      headingError K L _actZRot param s3 w3 = (Returns h, s4, w4)
  | RightToLeft =>
      headingError K L _actZRot param s2 w2 = (Returns h, s3, w3) /\
      distanceError K L _pt param s3 w3 = (Returns d, s4, w4)
  end ->
  poseError K L order _pt _actZRot _st_para _len_tol s w
    = (Returns (mkVector3d d h param), s4, w4) /\
  calls w2 =
    call_s1774 (curve s) (data _pt) (geometric_resolution s) _st_para
      (_st_para + u * _len_tol)%float _st_para :: calls w1.
Proof.
  intros Hu Hsearch Herrors.
  assert (geometric_resolution s1 = geometric_resolution s /\ curve s1 = curve s)
    as [Hg Hc].
  { pose proof (getCurveLength_frame s w) as F.
    unfold getUnitParameter, bind, state_of in *.
    destruct (getCurveLength K s w) as [[[len | e | |] s'] w']; try discriminate.
    unfold this, ret in Hu. inversion Hu; subst. cbn [fst snd] in F. tauto. }
  split.
  - unfold poseError.
    rewrite (bind_returns _ _ Hu). cbv beta.
    rewrite (bind_returns (getGeometricResolution (heap := heap)) _
               (a := geometric_resolution s1) (s' := s1) (w' := w1) eq_refl).
    cbv beta. rewrite Hg.
    rewrite (bind_returns _ _ Hsearch). cbv beta.
    destruct order; destruct Herrors as [H1 H2];
      rewrite (bind_returns _ _ H1); cbv beta;
      rewrite (bind_returns _ _ H2); reflexivity.
  - revert Hsearch. unfold localClosestPointSearch, bind, this, query.
    rewrite Hc.
    destruct (s1774 K (kheap w1) (curve s) (data _pt) (dimension s1)
                (geometric_resolution s) _st_para
                (_st_para + u * _len_tol)%float _st_para) as [pr st].
    destruct (st <? 0); unfold throw, ret; intros E; inversion E; reflexivity.
Qed.

(** C5.  [headingError] returns the raw difference
    [_actHeading - heading] after [wrap]: lowered by [2 * M_PI] exactly
    when it exceeds [M_PI], else raised by [2 * M_PI] exactly when it is
    below [- M_PI], else as it is; and a raw difference strictly between
    [M_PI] and [3 * M_PI] gives a result strictly above [- M_PI] and at
    most [M_PI]. *)
Theorem headingError_wraps (_actHeading _param : double)
    (s : SplineBase) (w : World heap) :
  let raw := (_actHeading - heading_at K L s w _param)%float in
  result_of (headingError K L _actHeading _param s w) = Returns (wrap raw) /\
  ((M_PI <? raw)%float = true -> wrap raw = (raw - 2 * M_PI)%float) /\
  ((M_PI <? raw)%float = false -> (raw <? - M_PI)%float = true ->
     wrap raw = (raw + 2 * M_PI)%float) /\
  ((M_PI <? raw)%float = false -> (raw <? - M_PI)%float = false ->
     wrap raw = raw) /\
  ((M_PI <? raw)%float = true -> (raw <? 3 * M_PI)%float = true ->
     (- M_PI <? wrap raw)%float = true /\ (wrap raw <=? M_PI)%float = true).
Proof.
  intros raw. rewrite headingError_returns. fold raw.
  split; [reflexivity |]. unfold wrap.
  split; [intros ->; reflexivity |].
  split; [intros -> ->; reflexivity |].
  split; [intros -> ->; reflexivity |].
  intros Hlo Hhi. rewrite Hlo. apply wrap_down_range; assumption.
Qed.


(** C7.  [findOneClosestPoint] returns the first isolated parameter when
    the global search gives one, else the start of the first ambiguous
    segment; it throws the logic error exactly when the search returns
    neither, and a failure of the search is passed on. *)
Theorem findOneClosestPoint_cases (_pt : list double) (_geores : double)
    (s : SplineBase) (w : World heap) :
  let r := result_of (findOneClosestPoint K _pt _geores s w) in
  match result_of (findClosestPoints K _pt [] [] _geores s w) with
  | Returns (p :: _, _) => r = Returns p
  | Returns ([], c :: _) => r = Returns (fst c)
  | Returns ([], []) =>
      r = Throws (logic_error "no closes point returned by findClosestPoints")
  | Throws e => r = Throws e
  | Undefined => r = Undefined
  | OutOfFuel => r = OutOfFuel
  end /\
  ((exists what, r = Throws (logic_error what)) <->
   result_of (findClosestPoints K _pt [] [] _geores s w) = Returns ([], [])).
Proof.
  intros r. unfold r, findOneClosestPoint, bind, result_of.
  assert (forall e, fst (fst (findClosestPoints K _pt [] [] _geores s w))
                    = Throws e ->
                    e = runtime_error "failed to find the closest points") as Hthrow.
  { intros e. unfold findClosestPoints, bind, this, query.
    destruct (s1953 K (kheap w) (curve s) _pt (dimension s) _geores _geores)
      as [[ps cs] st].
    destruct (negb (st =? 0)); simpl; intros E; inversion E; reflexivity. }
  destruct (findClosestPoints K _pt [] [] _geores s w)
    as [[[[points curves] | e | |] s'] w']; cbn [fst snd] in *.
  - destruct points as [| p points]; [destruct curves as [| c curves] |];
      cbn [fst snd]; (split; [reflexivity |]); split.
    + reflexivity.
    + intros _. eexists. reflexivity.
    + intros [what E]. discriminate.
    + discriminate.
    + intros [what E]. discriminate.
    + discriminate.
  - split; [reflexivity |]. split; [| discriminate].
    intros [what E]. rewrite (Hthrow e eq_refl) in E. discriminate.
  - split; [reflexivity |]. split; [intros [what E] |]; discriminate.
  - split; [reflexivity |]. split; [intros [what E] |]; discriminate.
Qed.

(** C8.  The local search throws exactly on a negative status of [s1774]
    and returns the kernel's parameter otherwise, also on a positive
    status; the global search throws exactly on a status of [s1953] other
    than zero, so also on the positive ones. *)
Theorem search_status_conventions (ref_point : list double)
    (_guess _start _end _geores : double)
    (_result_points : list double) (_result_curves : list (double * double))
    (s : SplineBase) (w : World heap) :
  let klocal := s1774 K (kheap w) (curve s) ref_point (dimension s) _geores
                  _start _end _guess in
  let kglobal := s1953 K (kheap w) (curve s) ref_point (dimension s)
                   _geores _geores in
  let rlocal := result_of (localClosestPointSearch K ref_point _guess _start
                             _end _geores s w) in
  let rglobal := result_of (findClosestPoints K ref_point _result_points
                              _result_curves _geores s w) in
  let failed := runtime_error "failed to find the closest points" in
  (snd klocal < 0 -> rlocal = Throws failed) /\
  (0 <= snd klocal -> rlocal = Returns (fst klocal)) /\
  (snd kglobal <> 0 -> rglobal = Throws failed) /\
  (snd kglobal = 0 ->
     rglobal = Returns (_result_points ++ fst (fst kglobal),
                        _result_curves ++
                          map (fun c => (epar1_0 c, epar1_1 c)) (snd (fst kglobal)))) /\
  (0 < snd klocal -> 0 < snd kglobal ->
     rlocal = Returns (fst klocal) /\ rglobal = Throws failed).
Proof.
  intros klocal kglobal rlocal rglobal failed.
  assert ((snd klocal < 0 -> rlocal = Throws failed) /\
          (0 <= snd klocal -> rlocal = Returns (fst klocal))) as [Hl1 Hl2].
  { unfold rlocal, klocal, localClosestPointSearch, bind, this, query, result_of.
    destruct (s1774 K (kheap w) (curve s) ref_point (dimension s) _geores
                _start _end _guess) as [pr st]. cbn [fst snd].
    destruct (Z.ltb_spec st 0); split; intros; try lia; reflexivity. }
  assert ((snd kglobal <> 0 -> rglobal = Throws failed) /\
          (snd kglobal = 0 ->
           rglobal = Returns (_result_points ++ fst (fst kglobal),
                        _result_curves ++
                          map (fun c => (epar1_0 c, epar1_1 c)) (snd (fst kglobal)))))
    as [Hg1 Hg2].
  { unfold rglobal, kglobal, findClosestPoints, bind, this, query, result_of.
    destruct (s1953 K (kheap w) (curve s) ref_point (dimension s) _geores _geores)
      as [[ps cs] st]. cbn [fst snd].
    destruct (Z.eqb_spec st 0); split; intros; try contradiction; try lia;
      reflexivity. }
  repeat split; trivial.
  - apply Hl2. lia.
  - apply Hg1. lia.
Qed.

(** C10.  Assigning an object to itself returns the object and changes
    nothing: every object of the store keeps its fields, the kernel's
    memory is as it was and no kernel call is made (no [freeCurve], no
    [copyCurve]). *)
Theorem self_assignment_is_noop (a : nat) (st : Store) (w : World heap) :
  (a < List.length st)%nat ->
  assign K a a st w = (Returns a, st, w).
Proof.
  intros H. unfold assign.
  destruct (nth_error st a) as [x |] eqn:E.
  - rewrite Nat.eqb_refl. reflexivity.
  - apply nth_error_None in E. lia.
Qed.

End Queries.

(** ** The methods on the line kernel *)

Section OnTheLine.

Import Line.
Local Open Scope float_scope.

(** The flags do not go back to [false]: on the object [measured], whose
    length 2 is cached, [clear], [simplify] and a new [interpolate] all
    leave [has_curve_length] set, and after the new curve of length 4 is
    fitted [getCurveLength] still answers 2. *)
Lemma cache_not_reset_on_the_line :
  has_curve_length (fst measured) = true /\
  has_curve_length (state_of (clear K0 (fst measured) (snd measured))) = true /\
  has_curve_length (state_of (simplify K0 0.125 (fst measured) (snd measured)))
    = true /\
  (let refitted := run K0 libs [Interpolate five_points []] measured in
   has_curve_length (fst refitted) = true /\
   s1240 K0 (kheap (snd refitted)) (curve (fst refitted)) 0.125 = (4, 0%Z) /\
   result_of (getCurveLength K0 (fst refitted) (snd refitted)) = Returns 2).
Proof. vm_compute. repeat split. Qed.

Lemma cache_outlives_replacement_witness :
  let steps := [Method 0 Clear; Method 0 (Interpolate five_points []);
                Assignment 1 0; Method 0 SimplifyDefault;
                Method 1 GetCurveLength; Method 0 (GetCurvatureMax 100)] in
  has_curve_length (fst measured) = true /\
  forallb (spares 0) steps = true /\
  exists s',
    nth_error (fst (exec K0 libs steps ([fst measured; s0], snd measured))) 0
      = Some s' /\
    length_is 2 s'.
Proof.
  intros steps. split; [reflexivity |]. split; [reflexivity |].
  exact (proj1 (proj2 (proj2 (proj2 (proj2
           (cache_outlives_replacement K0 libs (fst measured) (snd measured))))))
           steps 0%nat [fst measured; s0] eq_refl eq_refl eq_refl).
Defined.

(** The length belongs to the object, not to the curve: once the length 2
    of the first curve is cached and a curve of length 4 is fitted, the
    first [getCurveLength] for the new curve makes no kernel call and
    answers 2. *)
Lemma getCurveLength_stale_after_refit :
  let refitted := run K0 libs [Interpolate five_points []] measured in
  s1240 K0 (kheap (snd refitted)) (curve (fst refitted))
    (geometric_resolution (fst refitted)) = (4, 0%Z) /\
  getCurveLength K0 (fst refitted) (snd refitted)
    = (Returns 2, fst refitted, snd refitted).
Proof. vm_compute. split; reflexivity. Qed.

Lemma getCurveLength_idempotent_witness :
  let steps := [Method 0 (GetPoint 1); Method 0 (Interpolate five_points []);
                Assignment 1 0;
                Method 0 (PoseError RightToLeft (mkVector3d 0 1 0) 0 0 0.5);
                Method 0 Clear] in
  let first := getCurveLength K0 (fst fitted) (snd fitted) in
  let later := exec K0 libs steps
                 (store_set 0 (state_of first) [fst fitted; s0], world_of first) in
  has_curve_length (fst fitted) = false /\
  s1240 K0 (kheap (snd fitted)) (curve (fst fitted)) 0.125 = (2, 0%Z) /\
  result_of first = Returns 2 /\
  exists s',
    nth_error (fst later) 0 = Some s' /\
    getCurveLength K0 s' (snd later) = (Returns 2, s', snd later).
Proof.
  intros steps first later.
  pose proof (getCurveLength_idempotent K0 libs 0%nat [fst fitted; s0]
                (fst fitted) (snd fitted) steps eq_refl eq_refl eq_refl eq_refl)
    as H.
  split; [reflexivity |]. split; [reflexivity |].
  split; [exact (proj1 H) |].
  exact (proj2 (proj2 (proj2 (proj2 H)))).
Defined.

(** C2 (where the code misses the claim).  On the fitted line, whose
    domain is [0, 2], the parameter 5 is outside: [getPoint] refuses it,
    while [getFrenetFrame] and [getHeading] call the kernel's [s2559] with
    it and return. *)
Theorem getFrenetFrame_unguarded_on_the_line :
  outside (fst fitted) 5 = true /\
  result_of (getPoint K0 5 (fst fitted) (snd fitted))
    = Throws (out_of_range in_range_msg) /\
  result_of (getFrenetFrame K0 5 (fst fitted) (snd fitted))
    = Returns (mkMatrix3d (mkVector3d 1 0 0) (mkVector3d 0 1 0) (mkVector3d 0 0 1)) /\
  new_calls (snd fitted) (world_of (getFrenetFrame K0 5 (fst fitted) (snd fitted)))
    = [call_s2559 1%Z 5] /\
  result_of (getHeading K0 libs 5 (fst fitted) (snd fitted)) = Returns 0 /\
  new_calls (snd fitted) (world_of (getHeading K0 libs 5 (fst fitted) (snd fitted)))
    = [call_s2559 1%Z 5].
Proof. vm_compute. repeat split. Qed.

(** A curve of length zero over the domain [0, 1]: [getCurveLength]
    returns 0 and [getUnitParameter] returns an infinity, not an error. *)
Lemma getUnitParameter_infinite_on_the_line :
  result_of (getCurveLength K0 (fst still) (snd still)) = Returns 0 /\
  result_of (getUnitParameter K0 (fst still) (snd still)) = Returns infinity.
Proof. vm_compute. split; reflexivity. Qed.

Lemma getUnitParameter_quotient_witness :
  result_of (getCurveLength K0 (fst still) (snd still)) = Returns 0 /\
  is_infinity ((end_param (fst still) - start_param (fst still)) / 0)
  || is_nan ((end_param (fst still) - start_param (fst still)) / 0) = true.
Proof.
  split; [reflexivity |].
  exact (proj2 (getUnitParameter_quotient K0 (fst still) (snd still)) eq_refl).
Defined.

Lemma poseError_composes_witness :
  result_of (poseError K0 libs LeftToRight (mkVector3d 0 1 0) 0 0 0.5
               (fst fitted) (snd fitted))
    = Returns (mkVector3d 1 0 0) /\
  result_of (poseError K0 libs RightToLeft (mkVector3d 0 1 0) 0 0 0.5
               (fst fitted) (snd fitted))
    = Returns (mkVector3d 1 0 0).
Proof.
  pose proof (fun o s1 s2 s3 s4 w1 w2 w3 w4 =>
                poseError_composes K0 libs o (mkVector3d 0 1 0) 0 0 0.5
                  (fst fitted) s1 s2 s3 s4 (snd fitted) w1 w2 w3 w4) as P.
  split.
  - edestruct (P LeftToRight) as [H _];
      [ vm_compute; reflexivity | vm_compute; reflexivity
      | split; vm_compute; reflexivity |].
    rewrite H. reflexivity.
  - edestruct (P RightToLeft) as [H _];
      [ vm_compute; reflexivity | vm_compute; reflexivity
      | split; vm_compute; reflexivity |].
    rewrite H. reflexivity.
Defined.

Lemma headingError_wraps_witness :
  (M_PI <? 4) = true /\ (4 <? 3 * M_PI) = true /\
  heading_at K0 libs (fst fitted) (snd fitted) 0 = 0 /\
  result_of (headingError K0 libs 4 0 (fst fitted) (snd fitted))
    = Returns (4 - 2 * M_PI) /\
  (- M_PI <? wrap 4) = true /\ (wrap 4 <=? M_PI) = true.
Proof.
  pose proof (headingError_wraps K0 libs 4 0 (fst fitted) (snd fitted)) as H.
  split; [reflexivity |]. split; [reflexivity |]. split; [reflexivity |].
  split; [exact (proj1 H) |].
  exact (proj2 (proj2 (proj2 (proj2 H))) eq_refl eq_refl).
Defined.





Lemma findOneClosestPoint_cases_witness :
  result_of (findClosestPoints K0 [1.5; 1; 0] [] [] 0.125 (fst fitted) (snd fitted))
    = Returns ([1.5], []) /\
  result_of (findOneClosestPoint K0 [1.5; 1; 0] 0.125 (fst fitted) (snd fitted))
    = Returns 1.5.
Proof.
  split; [reflexivity |].
  exact (proj1 (findOneClosestPoint_cases K0 [1.5; 1; 0] 0.125
                  (fst fitted) (snd fitted))).
Defined.

(** A kernel whose searches report the status 1: the local search returns,
    the global search throws. *)
Lemma search_status_conventions_witness :
  snd (s1774 (kernel 1) (kheap (snd fitted)) (curve (fst fitted)) [1.5; 1; 0]
         (dimension (fst fitted)) 0.125 0 2 1) = 1%Z /\
  snd (s1953 (kernel 1) (kheap (snd fitted)) (curve (fst fitted)) [1.5; 1; 0]
         (dimension (fst fitted)) 0.125 0.125) = 1%Z /\
  result_of (localClosestPointSearch (kernel 1) [1.5; 1; 0] 1 0 2 0.125
               (fst fitted) (snd fitted)) = Returns 1.5 /\
  result_of (findClosestPoints (kernel 1) [1.5; 1; 0] [] [] 0.125
               (fst fitted) (snd fitted))
    = Throws (runtime_error "failed to find the closest points").
Proof.
  split; [reflexivity |]. split; [reflexivity |].
  exact (proj2 (proj2 (proj2 (proj2
           (search_status_conventions (kernel 1) [1.5; 1; 0] 1 0 2 0.125 [] []
              (fst fitted) (snd fitted)))))
         eq_refl eq_refl).
Defined.

Lemma self_assignment_is_noop_witness :
  (1 < List.length [fst fitted; fst measured])%nat /\
  assign K0 1 1 [fst fitted; fst measured] (snd measured)
    = (Returns 1%nat, [fst fitted; fst measured], snd measured).
Proof.
  split; [repeat constructor |].
  apply self_assignment_is_noop. repeat constructor.
Defined.

End OnTheLine.

(** * Further properties of the code *)

(** ** The order of binary64 numbers *)

Section Binary64Order.

Lemma SFcompare_antisym (a b : spec_float) :
  SFcompare b a = option_map CompOpp (SFcompare a b).
Proof.
  destruct a as [sa | sa | | sa ma ea], b as [sb | sb | | sb mb eb];
    try reflexivity;
    try (destruct sa; reflexivity); try (destruct sb; reflexivity);
    try (destruct sa, sb; reflexivity).
  unfold SFcompare.
  destruct sa, sb; try reflexivity; cbn [option_map]; f_equal;
    rewrite (Z.compare_antisym ea eb);
    change (Pos.compare_cont Eq mb ma) with (Pos.compare mb ma);
    change (Pos.compare_cont Eq ma mb) with (Pos.compare ma mb);
    rewrite (Pos.compare_antisym ma mb);
    destruct (ea ?= eb); cbn [CompOpp]; try reflexivity;
    destruct (ma ?= mb)%positive; reflexivity.
Qed.

Lemma SFcompare_refl (a : spec_float) :
  a <> S754_nan -> SFcompare a a = Some Eq.
Proof.
  destruct a as [sa | sa | | sa ma ea]; intros H;
    try (destruct sa; reflexivity); try contradiction.
  unfold SFcompare. rewrite Z.compare_refl.
  change (Pos.compare_cont Eq ma ma) with (Pos.compare ma ma).
  rewrite Pos.compare_refl. destruct sa; reflexivity.
Qed.

Lemma leb_not_ltb (a b : float) :
  (a <=? b)%float = true -> (b <? a)%float = false.
Proof.
  rewrite leb_spec, ltb_spec. unfold SFleb, SFltb.
  rewrite (SFcompare_antisym (Prim2SF a) (Prim2SF b)).
  destruct (SFcompare (Prim2SF a) (Prim2SF b)) as [[| |] |];
    cbn [option_map CompOpp]; congruence.
Qed.

Lemma ltb_irrefl (a : float) : (a <? a)%float = false.
Proof.
  rewrite ltb_spec. unfold SFltb.
  pose proof (SFcompare_antisym (Prim2SF a) (Prim2SF a)) as H.
  destruct (SFcompare (Prim2SF a) (Prim2SF a)) as [[| |] |];
    cbn [option_map CompOpp] in H; congruence.
Qed.

Lemma ltb_leb (a b : float) :
  (a <? b)%float = true -> (a <=? b)%float = true.
Proof.
  rewrite leb_spec, ltb_spec. unfold SFleb, SFltb.
  destruct (SFcompare (Prim2SF a) (Prim2SF b)) as [[| |] |]; congruence.
Qed.

(** What is compared with success is a number. *)
Lemma ltb_comparable (a b : float) :
  (a <? b)%float = true ->
  (a <=? a)%float = true /\ (b <=? b)%float = true.
Proof.
  rewrite !leb_spec, ltb_spec. unfold SFleb, SFltb. intros H.
  assert (Prim2SF a <> S754_nan /\ Prim2SF b <> S754_nan) as [Ha Hb].
  { destruct (Prim2SF a), (Prim2SF b); split; try discriminate;
      intros E; discriminate. }
  rewrite !SFcompare_refl by assumption. split; reflexivity.
Qed.

Lemma ltb_false_leb (a b : float) :
  (a <? b)%float = false ->
  (a <=? a)%float = true -> (b <=? b)%float = true ->
  (b <=? a)%float = true.
Proof.
  rewrite !leb_spec, ltb_spec. unfold SFleb, SFltb.
  rewrite (SFcompare_antisym (Prim2SF a) (Prim2SF b)).
  destruct (Prim2SF a) as [sa | sa | | sa ma ea],
           (Prim2SF b) as [sb | sb | | sb mb eb];
    try discriminate; cbn -[Z.compare Pos.compare_cont];
    try (destruct sa; try discriminate; try reflexivity);
    try (destruct sb; try discriminate; try reflexivity);
    intros; try discriminate; try reflexivity.
  all: destruct (ea ?= eb); cbn [CompOpp] in *; try discriminate; try reflexivity.
  all: destruct (Pos.compare_cont Eq ma mb); cbn [CompOpp] in *;
    try discriminate; try reflexivity.
Qed.

Lemma nan_not_ltb (a : float) :
  (nan <? a)%float = false /\ (a <? nan)%float = false.
Proof.
  rewrite !ltb_spec. change (Prim2SF nan) with S754_nan.
  split; [reflexivity |]. destruct (Prim2SF a); reflexivity.
Qed.

(** From [0 <= m] and [m < c], [0 <= c]. *)
Lemma nonneg_ltb_nonneg (m c : float) :
  (0 <=? m)%float = true -> (m <? c)%float = true -> (0 <=? c)%float = true.
Proof.
  rewrite !leb_spec, ltb_spec. change (Prim2SF 0) with (S754_zero false).
  unfold SFleb, SFltb.
  destruct (Prim2SF m) as [sa | sa | | sa ma ea],
           (Prim2SF c) as [sb | sb | | sb mb eb];
    cbn -[Z.compare Pos.compare_cont];
    try (destruct sa); try (destruct sb); try discriminate; try reflexivity.
Qed.

Lemma wrap_up_range_SF (x : spec_float) :
  valid_binary x = true ->
  SFltb (S754_finite true 5305678314021330 (-49)) x = true ->
  SFltb x (S754_finite true pi_m (-51)) = true ->
  SFltb (S754_finite true pi_m (-51))
        (SF64add x (S754_finite false pi_m (-50))) = true /\
  SFleb (SF64add x (S754_finite false pi_m (-50)))
        (S754_finite false pi_m (-51)) = true.
Proof.
  intros Hv Hlo Hhi.
  destruct x as [s | s | | s m e]; try (destruct s; discriminate); try discriminate.
  destruct s; [| discriminate].
  apply SFltb_neg_finite in Hlo, Hhi.
  destruct (valid_digits _ _ _ Hv) as [Hd _]; [lia |].
  pose proof (digits2_pos_bounds m) as B. rewrite Hd in B.
  change (2 ^ (53 - 1)) with 4503599627370496 in B.
  change (2 ^ 53) with 9007199254740992 in B.
  unfold SF64add, SFadd, cond_Zopp.
  assert (e = -51 \/ e = -50 \/ e = -49) as [-> | [-> | ->]] by lia.
  - change (Z.min (-51) (-50)) with (-51). cbv zeta.
    change (fst (shl_align m (-51) (-51))) with m.
    change (fst (shl_align pi_m (-50) (-51))) with (pi_m~0)%positive.
    destruct (- Zpos m + Zpos pi_m~0) as [| d | d] eqn:Hdiff;
      unfold pi_m in *; try lia.
    apply round_below_pi. unfold pi_m. lia.
  - change (Z.min (-50) (-50)) with (-50). cbv zeta.
    change (fst (shl_align m (-50) (-50))) with m.
    change (fst (shl_align pi_m (-50) (-50))) with pi_m.
    destruct (- Zpos m + Zpos pi_m) as [| d | d] eqn:Hdiff; unfold pi_m in *.
    + split; reflexivity.
    + apply round_below_pi. unfold pi_m. lia.
    + apply round_below_pi. unfold pi_m. lia.
  - change (Z.min (-49) (-50)) with (-50). cbv zeta.
    change (fst (shl_align m (-49) (-50))) with (m~0)%positive.
    change (fst (shl_align pi_m (-50) (-50))) with pi_m.
    destruct (- Zpos m~0 + Zpos pi_m) as [| d | d] eqn:Hdiff;
      unfold pi_m in *; try lia.
    apply round_below_pi. unfold pi_m. lia.
Qed.

(** Between [- 3 * M_PI] and [- M_PI], adding [2 * M_PI] is exact and lands
    strictly above [- M_PI] and at most at [M_PI]. *)
Lemma wrap_up_range (e : float) :
  (- (3 * M_PI) <? e)%float = true -> (e <? - M_PI)%float = true ->
  (- M_PI <? e + 2 * M_PI)%float = true /\
  (e + 2 * M_PI <=? M_PI)%float = true.
Proof.
  rewrite !ltb_spec, leb_spec, add_spec.
  change (Prim2SF M_PI) with (S754_finite false pi_m (-51)).
  change (Prim2SF (- (3 * M_PI))) with (S754_finite true 5305678314021330 (-49)).
  change (Prim2SF (- M_PI)) with (S754_finite true pi_m (-51)).
  change (Prim2SF (2 * M_PI)) with (S754_finite false pi_m (-50)).
  apply wrap_up_range_SF, Prim2SF_valid.
Qed.

(** The correction of [headingError] brings every raw difference strictly
    between [- 3 * M_PI] and [3 * M_PI] into the closed interval from
    [- M_PI] to [M_PI]. *)
Lemma wrap_range (e : float) :
  (- (3 * M_PI) <? e)%float = true -> (e <? 3 * M_PI)%float = true ->
  (- M_PI <=? wrap e)%float = true /\ (wrap e <=? M_PI)%float = true.
Proof.
  intros Hlo Hhi. unfold wrap.
  destruct (M_PI <? e)%float eqn:Hup.
  - destruct (wrap_down_range e Hup Hhi) as [H1 H2].
    split; [apply ltb_leb, H1 | exact H2].
  - destruct (e <? - M_PI)%float eqn:Hdown.
    + destruct (wrap_up_range e Hlo Hdown) as [H1 H2].
      split; [apply ltb_leb, H1 | exact H2].
    + destruct (ltb_comparable _ _ Hlo) as [_ He]. split.
      * apply (ltb_false_leb e (- M_PI)); trivial.
      * apply (ltb_false_leb M_PI e); trivial.
Qed.

End Binary64Order.

(** ** Reading, releasing, replacing *)

Section Conduct.

Context {heap : Type}.
Variable K : Sisl heap.
Variable L : Libs.

Lemma new_calls_app (w : World heap) (h : heap) (cs : list kernel_call) :
  new_calls w (mkWorld h (cs ++ calls w)) = rev cs.
Proof.
  unfold new_calls. cbn [calls]. rewrite length_app.
  replace (List.length cs + List.length (calls w) - List.length (calls w))%nat
    with (List.length cs) by lia.
  rewrite firstn_app, firstn_all, Nat.sub_diag, firstn_O, app_nil_r.
  reflexivity.
Qed.

Lemma new_calls_none (w : World heap) : new_calls w w = [].
Proof.
  unfold new_calls. rewrite Nat.sub_diag. reflexivity.
Qed.

Lemma read_only_ret {A} (a : A) : read_only (@ret heap A a).
Proof. intros s w. repeat split. exists []. reflexivity. Qed.

Lemma read_only_throw {A} e : read_only (@throw heap A e).
Proof. intros s w. repeat split. exists []. reflexivity. Qed.

Lemma read_only_undefined {A} : read_only (@undefined heap A).
Proof. intros s w. repeat split. exists []. reflexivity. Qed.

Lemma read_only_this : read_only (@this heap).
Proof. intros s w. repeat split. exists []. reflexivity. Qed.

Lemma read_only_query {A} c (f : heap -> A) : read_only (query c f).
Proof. intros s w. repeat split. exists [c]. reflexivity. Qed.

Lemma read_only_bind {A B} (m : M heap A) (k : A -> M heap B) :
  read_only m -> (forall a, read_only (k a)) -> read_only (bind m k).
Proof.
  intros Hm Hk s w. specialize (Hm s w).
  unfold bind, state_of, world_of in *.
  destruct (m s w) as [[[a | e | |] s'] w']; cbn [fst snd] in *; trivial.
  destruct Hm as (-> & Hh & cs & Hc).
  destruct (Hk a s w') as (Hs & Hh' & cs' & Hc').
  unfold state_of, world_of in *.
  split; [exact Hs |]. split; [congruence |].
  exists (cs' ++ cs). rewrite Hc', Hc, app_assoc. reflexivity.
Qed.

Ltac read_only_step :=
  first
    [ apply read_only_ret | apply read_only_throw | apply read_only_undefined
    | apply read_only_this | apply read_only_query
    | apply read_only_bind; [| intros ?]
    | match goal with
      | |- read_only (if ?b then _ else _) => destruct b
      | |- read_only (let (_, _) := ?p in _) => destruct p
      | |- read_only (match ?l with nil => _ | cons _ _ => _ end) => destruct l
      | |- read_only (match ?o with Some _ => _ | None => _ end) => destruct o
      end ].

Lemma getPoint_read_only p : read_only (getPoint K p).
Proof. unfold getPoint. repeat read_only_step. Qed.

Lemma getCurvature_read_only p : read_only (getCurvature K p).
Proof. unfold getCurvature. repeat read_only_step. Qed.

Lemma getFrenetFrame_read_only p : read_only (getFrenetFrame K p).
Proof. unfold getFrenetFrame. repeat read_only_step. Qed.

Lemma getHeading_read_only p : read_only (getHeading K L p).
Proof.
  unfold getHeading. apply read_only_bind;
    [apply getFrenetFrame_read_only | intros frame; apply read_only_ret].
Qed.

Lemma findClosestPoints_read_only pt ps cs g :
  read_only (findClosestPoints K pt ps cs g).
Proof. unfold findClosestPoints. repeat read_only_step. Qed.

Lemma localClosestPointSearch_read_only pt gu a b g :
  read_only (localClosestPointSearch K pt gu a b g).
Proof. unfold localClosestPointSearch. repeat read_only_step. Qed.

(** X4.  The evaluators, the Frenet frame and the heading, the two error
    terms and the three searches only read: in every outcome the object
    has all its fields as before and the kernel's memory is as before; only
    the log of kernel calls has grown. *)
Theorem queries_are_read_only :
  (forall p, read_only (getPoint K p)) /\
  (forall p, read_only (getCurvature K p)) /\
  (forall p, read_only (getVariationOfCurvature K p)) /\
  (forall p, read_only (getFrenetFrame K p)) /\
  (forall p, read_only (getHeading K L p)) /\
  (forall a p, read_only (headingError K L a p)) /\
  (forall pt p, read_only (distanceError K L pt p)) /\
  (forall pt ps cs g, read_only (findClosestPoints K pt ps cs g)) /\
  (forall pt g, read_only (findOneClosestPoint K pt g)) /\
  (forall pt gu a b g, read_only (localClosestPointSearch K pt gu a b g)).
Proof.
  repeat match goal with |- _ /\ _ => split end; intros.
  - apply getPoint_read_only.
  - apply getCurvature_read_only.
  - unfold getVariationOfCurvature. repeat read_only_step.
  - apply getFrenetFrame_read_only.
  - apply getHeading_read_only.
  - unfold headingError. apply read_only_bind; [apply getHeading_read_only |].
    intros h. repeat read_only_step.
  - unfold distanceError. apply read_only_bind; [apply getPoint_read_only |].
    intros written. destruct (write3 _ written); [| apply read_only_undefined].
    apply read_only_bind; [apply getHeading_read_only |].
    intros h. apply read_only_ret.
  - apply findClosestPoints_read_only.
  - unfold findOneClosestPoint.
    apply read_only_bind; [apply findClosestPoints_read_only |].
    intros [points curves]. repeat read_only_step.
  - apply localClosestPointSearch_read_only.
Qed.

(** X5.  [clear] always returns and leaves the object without a curve; it
    calls [freeCurve] once, on the curve held, when there is one and makes
    no call otherwise.  After it a second [clear] and the destructor do
    nothing at all: no curve is released twice. *)
Theorem clear_releases_once (s : SplineBase) (w : World heap) :
  let r := clear K s w in
  result_of r = Returns tt /\
  state_of r = set_curve NULL s /\
  new_calls w (world_of r)
    = (if non_null (curve s) then [call_freeCurve (curve s)] else []) /\
  clear K (state_of r) (world_of r) = (Returns tt, state_of r, world_of r) /\
  destroy K (state_of r) (world_of r) = (Returns tt, state_of r, world_of r).
Proof.
  unfold clear, destroy, bind, this, command, update, ret, result_of,
    state_of, world_of.
  destruct (non_null (curve s)) eqn:E; cbn [fst snd].
  - split; [reflexivity |]. split; [reflexivity |]. split.
    + apply (new_calls_app w _ [call_freeCurve (curve s)]).
    + split; reflexivity.
  - assert (curve s = NULL) as Hc.
    { unfold non_null in E. apply negb_false_iff, Z.eqb_eq in E. exact E. }
    split; [reflexivity |]. split.
    + destruct s; cbn in *. subst. reflexivity.
    + split; [apply new_calls_none |]. rewrite E. split; reflexivity.
Qed.

End Conduct.

(** ** The domain guard and the error model, further *)

Section Guards.

Context {heap : Type}.
Variable K : Sisl heap.
Variable L : Libs.

(** Inside the domain an evaluator is the kernel's answer: returned on
    status 0, a runtime error otherwise. *)
Lemma getPoint_inside (s : SplineBase) (w : World heap) (p : double) :
  outside s p = false ->
  getPoint K p s w =
  (let (result, status) := s1227 K (kheap w) (curve s) 0 p in
   if negb (status =? 0)
   then Throws (runtime_error "SISL error while computing a curve point")
   else Returns result,
   s, logged (call_s1227 (curve s) p) w).
Proof.
  intros H. unfold getPoint, bind, this, query, logged. rewrite H.
  destruct (s1227 K (kheap w) (curve s) 0 p) as [result status].
  destruct (negb (status =? 0)); reflexivity.
Qed.

Lemma getCurvature_inside (s : SplineBase) (w : World heap) (p : double) :
  outside s p = false ->
  getCurvature K p s w =
  (let (curvature, status) := s2550 K (kheap w) (curve s) p in
   if negb (status =? 0)
   then Throws (runtime_error "SISL error while computing a curvature")
   else Returns curvature,
   s, logged (call_s2550 (curve s) p) w).
Proof.
  intros H. unfold getCurvature, bind, this, query, logged. rewrite H.
  destruct (s2550 K (kheap w) (curve s) p) as [result status].
  destruct (negb (status =? 0)); reflexivity.
Qed.

Lemma getVariationOfCurvature_inside (s : SplineBase) (w : World heap) (p : double) :
  outside s p = false ->
  getVariationOfCurvature K p s w =
  (let (VoC, status) := s2556 K (kheap w) (curve s) p in
   if negb (status =? 0)
   then Throws (runtime_error "SISL error while computing a variation of curvature")
   else Returns VoC,
   s, logged (call_s2556 (curve s) p) w).
Proof.
  intros H. unfold getVariationOfCurvature, bind, this, query, logged. rewrite H.
  destruct (s2556 K (kheap w) (curve s) p) as [result status].
  destruct (negb (status =? 0)); reflexivity.
Qed.

Lemma inside_never_out_of_range (s : SplineBase) (w : World heap) (p : double) :
  outside s p = false ->
  forall what,
    result_of (getPoint K p s w) <> Throws (out_of_range what) /\
    result_of (getCurvature K p s w) <> Throws (out_of_range what) /\
    result_of (getVariationOfCurvature K p s w) <> Throws (out_of_range what).
Proof.
  intros H what.
  rewrite getPoint_inside, getCurvature_inside, getVariationOfCurvature_inside
    by exact H.
  unfold result_of. cbn [fst].
  destruct (s1227 K (kheap w) (curve s) 0 p) as [r1 st1].
  destruct (s2550 K (kheap w) (curve s) p) as [r2 st2].
  destruct (s2556 K (kheap w) (curve s) p) as [r3 st3].
  destruct (negb (st1 =? 0)), (negb (st2 =? 0)), (negb (st3 =? 0));
    repeat split; discriminate.
Qed.

(** X2.  On an object whose domain is not empty ([start_param] at most
    [end_param]) the two ends of the domain pass the guard: no evaluator
    answers them with an out-of-range error. *)
Theorem domain_ends_accepted (s : SplineBase) (w : World heap) (what : string) :
  (start_param s <=? end_param s)%float = true ->
  outside s (start_param s) = false /\ outside s (end_param s) = false /\
  result_of (getPoint K (start_param s) s w) <> Throws (out_of_range what) /\
  result_of (getPoint K (end_param s) s w) <> Throws (out_of_range what) /\
  result_of (getCurvature K (start_param s) s w) <> Throws (out_of_range what) /\
  result_of (getCurvature K (end_param s) s w) <> Throws (out_of_range what) /\
  result_of (getVariationOfCurvature K (start_param s) s w)
    <> Throws (out_of_range what) /\
  result_of (getVariationOfCurvature K (end_param s) s w)
    <> Throws (out_of_range what).
Proof.
  intros H.
  assert (outside s (start_param s) = false /\ outside s (end_param s) = false)
    as [H0 H1].
  { unfold outside. rewrite !ltb_irrefl, (leb_not_ltb _ _ H). split; reflexivity. }
  destruct (inside_never_out_of_range s w _ H0 what) as (A & B & C).
  destruct (inside_never_out_of_range s w _ H1 what) as (A' & B' & C').
  repeat split; assumption.
Qed.

(** X3.  The guard compares, and nothing compares with NaN: a NaN
    parameter is outside of no domain, and the three guarded evaluators
    hand it to the kernel. *)
Theorem nan_passes_the_guard (s : SplineBase) (w : World heap) :
  outside s nan = false /\
  new_calls w (world_of (getPoint K nan s w)) = [call_s1227 (curve s) nan] /\
  new_calls w (world_of (getCurvature K nan s w)) = [call_s2550 (curve s) nan] /\
  new_calls w (world_of (getVariationOfCurvature K nan s w))
    = [call_s2556 (curve s) nan].
Proof.
  assert (outside s nan = false) as H.
  { unfold outside. destruct (nan_not_ltb (start_param s)) as [-> _].
    destruct (nan_not_ltb (end_param s)) as [_ ->]. reflexivity. }
  split; [exact H |].
  rewrite getPoint_inside, getCurvature_inside, getVariationOfCurvature_inside
    by exact H.
  unfold world_of, logged. cbn [snd].
  repeat split; apply (new_calls_app w (kheap w) [_]).
Qed.

(** X10.  Whenever the raw difference [_actHeading - heading] lies strictly
    between [- 3 * M_PI] and [3 * M_PI], as it does for two angles that are
    each within [- M_PI] and [M_PI], [headingError] returns a value between
    [- M_PI] and [M_PI], both ends included. *)
Theorem headingError_in_range (_actHeading _param : double)
    (s : SplineBase) (w : World heap) :
  let raw := (_actHeading - heading_at K L s w _param)%float in
  (- (3 * M_PI) <? raw)%float = true -> (raw <? 3 * M_PI)%float = true ->
  result_of (headingError K L _actHeading _param s w) = Returns (wrap raw) /\
  (- M_PI <=? wrap raw)%float = true /\ (wrap raw <=? M_PI)%float = true.
Proof.
  intros raw Hlo Hhi. rewrite headingError_returns. fold raw.
  split; [reflexivity |]. apply wrap_range; assumption.
Qed.


(** X13.  When the kernel cannot give the length of the curve and none is
    cached, [getUnitParameter], [getCurvatureMax] and [poseError] all fail
    with the error of [getCurveLength], and with its effects only: no
    curvature is sampled and no search is made. *)
Theorem length_failure_is_passed_on (e : exception) (s s' : SplineBase)
    (w w' : World heap) :
  getCurveLength K s w = (Throws e, s', w') ->
  getUnitParameter K s w = (Throws e, s', w') /\
  (forall order _pt _actZRot _st_para _len_tol,
     poseError K L order _pt _actZRot _st_para _len_tol s w
       = (Throws e, s', w')) /\
  (forall fuel, has_curvature_max s = false ->
     getCurvatureMax K fuel s w = (Throws e, s', w')).
Proof.
  intros H.
  assert (getUnitParameter K s w = (Throws e, s', w')) as Hu.
  { unfold getUnitParameter, bind. rewrite H. reflexivity. }
  split; [exact Hu |]. split.
  - intros. unfold poseError, bind at 1. rewrite Hu. reflexivity.
  - intros fuel Hflag. unfold getCurvatureMax, bind at 1, this at 1.
    rewrite Hflag. unfold bind at 1. rewrite Hu. reflexivity.
Qed.

End Guards.

(** ** Replacing and copying the curve *)

Section Replacing.

Context {heap : Type}.
Variable K : Sisl heap.
Variable L : Libs.

(** X1.  A parameter outside the domain is refused by [getPoint],
    [getCurvature] and [getVariationOfCurvature], and through [getPoint] by
    [distanceError], with the out-of-range error and nothing else: the
    object and the world, the log of kernel calls included, are as
    before. *)
Theorem out_of_domain_is_refused (s : SplineBase) (w : World heap)
    (p : double) (_pt : Vector3d) :
  outside s p = true ->
  let refused A : outcome A * SplineBase * World heap :=
    (Throws (out_of_range in_range_msg), s, w) in
  getPoint K p s w = refused _ /\
  getCurvature K p s w = refused _ /\
  getVariationOfCurvature K p s w = refused _ /\
  distanceError K L _pt p s w = refused _.
Proof.
  intros H refused.
  destruct (guarded_evaluators_refuse K s w p H) as (A & B & C).
  repeat split; trivial.
  unfold distanceError, bind. rewrite A. reflexivity.
Qed.

Lemma to_int_small (x : Z) : - 2 ^ 31 <= x < 2 ^ 31 -> to_int x = x.
Proof.
  intros H. unfold to_int.
  rewrite Z.mod_small; lia.
Qed.

(** X6.  [interpolate] on an object of dimension [d] (positive) with at
    least [d] coordinates: the old curve, if any, is released first; then
    the kernel fits [length points / d] points (coordinates beyond the last
    full point are passed over in silence), with [s1356] when no parameters
    are given and [s1357] otherwise.  Nothing is rolled back when the fit
    fails: in either outcome [start_param] is 0 and [curve] and [end_param]
    are what the kernel wrote. *)
Theorem interpolate_call_sequence (points parameters : list double)
    (s : SplineBase) (w : World heap) :
  0 < dimension s < 2 ^ 31 ->
  dimension s <= Z.of_nat (List.length points) < 2 ^ 31 ->
  let count := Z.of_nat (List.length points) / dimension s in
  let types := repeat 1 (Z.to_nat count) in
  let released := if non_null (curve s)
                  then freeCurve K (curve s) (kheap w) else kheap w in
  let fitted :=
    if is_empty parameters
    then s1356 K points count (dimension s) types (curve_order s) 0%float released
    else s1357 K points count (dimension s) types parameters (curve_order s)
           0%float released in
  let r := interpolate K points parameters s w in
  new_calls w (world_of r) =
    (if non_null (curve s) then [call_freeCurve (curve s)] else []) ++
    [if is_empty parameters
     then call_s1356 points count (dimension s) (curve_order s)
     else call_s1357 points parameters count (dimension s) (curve_order s)] /\
  kheap (world_of r) = snd fitted /\
  state_of r =
    set_curve (snd (fst (fst fitted)))
      (set_end_param (fst (fst (fst fitted))) (set_start_param 0%float s)) /\
  result_of r =
    (if snd (fst fitted) =? 0 then Returns tt
     else Throws (runtime_error "cannot generate the curve")).
Proof.
  intros Hd Hn. cbv zeta.
  unfold interpolate, bind, this, update, command, ret, throw, undefined.
  assert (to_size_t (dimension s) = dimension s) as Hsz.
  { unfold to_size_t. apply Z.mod_small. lia. }
  rewrite Hsz.
  set (count := Z.of_nat (List.length points) / dimension s).
  assert (1 <= count < 2 ^ 31) as Hc.
  { unfold count. split.
    - apply Z.div_le_lower_bound; lia.
    - apply Z.div_lt_upper_bound; nia. }
  rewrite repeat_length, Z2Nat.id, to_int_small by lia.
  replace (dimension s =? 0) with false by (symmetry; apply Z.eqb_neq; lia).
  replace (is_empty points) with false
    by (destruct points; [cbn in Hn; lia | reflexivity]).
  replace (is_empty (repeat 1 (Z.to_nat count))) with false
    by (destruct (Z.to_nat count) eqn:E; [lia | reflexivity]).
  cbn [orb].
  unfold result_of, state_of, world_of.
  destruct (non_null (curve s)), (is_empty parameters);
    cbn [fst snd kheap calls start_param set_start_param set_curve curve
         curve_order dimension].
  all: match goal with
       | |- context [s1356 K ?a ?b ?c ?d ?e ?f ?g] =>
           destruct (s1356 K a b c d e f g) as [[[en cv] st] h2]
       | |- context [s1357 K ?a ?b ?c ?d ?e ?f ?g ?h] =>
           destruct (s1357 K a b c d e f g h) as [[[en cv] st] h2]
       end.
  all: cbn [fst snd]; destruct (st =? 0); cbn [negb fst snd kheap calls].
  all: split;
    [ first [ apply (new_calls_app w _ [_; _]) | apply (new_calls_app w _ [_]) ]
    | split; [reflexivity | split; [destruct s; reflexivity | reflexivity]] ].
Qed.

(** X7.  [simplify] on an object without a curve throws before any kernel
    call.  When it throws, for this or for a failure of the kernel's
    [s1940], the object is as it was and no curve was released; when it
    returns, [s1940] was called on the curve held and then that curve was
    released, the object holds the new curve, and at most three errors are
    returned.  In no case does it touch [start_param] or [end_param]. *)
Theorem simplify_outcomes (tolerance : double) (s : SplineBase) (w : World heap) :
  let r := simplify K tolerance s w in
  let simplified :=
    s1940 K (curve s) [tolerance; tolerance; tolerance] (curve_order s)
      (curve_order s) 1 10 (kheap w) in
  (curve s = NULL ->
     r = (Throws (runtime_error "the curve is not initialized"), s, w)) /\
  (forall e, result_of r = Throws e ->
     state_of r = s /\
     forall c, ~ In (call_freeCurve c) (new_calls w (world_of r))) /\
  (forall maxerr, result_of r = Returns maxerr ->
     new_calls w (world_of r) =
       [call_s1940 (curve s) [tolerance; tolerance; tolerance];
        call_freeCurve (curve s)] /\
     state_of r = set_curve (fst (fst (fst simplified))) s /\
     kheap (world_of r) = freeCurve K (curve s) (snd simplified) /\
     maxerr = firstn 3 (snd (fst (fst simplified)))) /\
  start_param (state_of r) = start_param s /\
  end_param (state_of r) = end_param s.
Proof.
  intros r simplified. unfold r, simplified, simplify, bind, this, command,
    update, ret, throw, result_of, state_of, world_of.
  destruct (non_null (curve s)) eqn:E; cbn [negb fst snd].
  - assert (curve s <> NULL) as Hc.
    { unfold non_null in E. apply negb_true_iff, Z.eqb_neq in E. exact E. }
    destruct (s1940 K (curve s) [tolerance; tolerance; tolerance]
                (curve_order s) (curve_order s) 1 10 (kheap w))
      as [[[result maxerr] status] h].
    destruct (status =? 0); cbn [negb fst snd kheap calls].
    + split; [intros; contradiction |]. split; [discriminate |].
      split; [| split; destruct s; reflexivity].
      intros v Hv. inversion Hv; subst.
      split; [apply (new_calls_app w _ [_; _]) |]. repeat split.
    + split; [intros; contradiction |]. split; [| split; [discriminate |]].
      * intros e _. split; [reflexivity |]. intros c.
        pose proof (new_calls_app w h
                      [call_s1940 (curve s) [tolerance; tolerance; tolerance]])
          as Hlog.
        cbn [app] in Hlog. rewrite Hlog. cbn.
        intros [F | []]. discriminate.
      * split; reflexivity.
  - split; [reflexivity |]. split; [| split; [discriminate |]].
    + intros e _. split; [reflexivity |]. intros c.
      rewrite new_calls_none. intros [].
    + split; reflexivity.
Qed.

(** X11.  Assignment between two different objects makes the target what
    the copy constructor makes of the source: every field copied, the cache
    included, and the curve duplicated by one [copyCurve] when the source
    has one.  All other objects, the source among them, stay as they are.
    The curve the target held before is not released: [freeCurve] is never
    called. *)
Theorem assign_copies (this_ source : nat) (target src : SplineBase)
    (st : Store) (w : World heap) :
  this_ <> source ->
  nth_error st this_ = Some target ->
  nth_error st source = Some src ->
  let copy := SplineBase_copy K src w in
  assign K this_ source st w
    = (Returns this_, store_set this_ (fst copy) st, snd copy) /\
  nth_error (store_set this_ (fst copy) st) this_ = Some (fst copy) /\
  (forall a, a <> this_ ->
     nth_error (store_set this_ (fst copy) st) a = nth_error st a) /\
  cache (fst copy) = cache src /\
  new_calls w (snd copy)
    = (if non_null (curve src) then [call_copyCurve (curve src)] else []).
Proof.
  intros Hne Ht Hs copy.
  assert (this_ < List.length st)%nat as Hlen.
  { apply nth_error_Some. rewrite Ht. discriminate. }
  split; [| split; [| split; [| split]]].
  - unfold assign, copy, SplineBase_copy. rewrite Ht, Hs.
    replace (Nat.eqb source this_) with false
      by (symmetry; apply Nat.eqb_neq; congruence).
    destruct (non_null (curve src)); [| reflexivity].
    destruct (copyCurve K (curve src) (kheap w)) as [c h]. reflexivity.
  - apply store_set_same, Hlen.
  - intros a Ha. apply store_set_other. congruence.
  - unfold copy, SplineBase_copy.
    destruct (non_null (curve src)); [| reflexivity].
    destruct (copyCurve K (curve src) (kheap w)) as [c h]. reflexivity.
  - unfold copy, SplineBase_copy.
    destruct (non_null (curve src)); [| apply new_calls_none].
    destruct (copyCurve K (curve src) (kheap w)) as [c h].
    apply (new_calls_app w h [_]).
Qed.

End Replacing.

(** ** The maximal curvature *)

Section Curvature.

Context {heap : Type}.
Variable K : Sisl heap.

Lemma getCurveLength_heap (s : SplineBase) (w : World heap) :
  kheap (world_of (getCurveLength K s w)) = kheap w.
Proof.
  unfold getCurveLength, bind, this, query, update, ret, throw, world_of.
  destruct (has_curve_length s); [reflexivity |].
  destruct (s1240 K (kheap w) (curve s) (geometric_resolution s)) as [l st].
  destruct (negb (st =? 0)); reflexivity.
Qed.

(** The running maximum starts at zero and is only ever replaced by
    something greater: it stays at least zero. *)
Lemma scanCurvature_nonneg (fuel : nat) : forall p d s w,
  (0 <=? curvature_max s)%float = true ->
  (0 <=? curvature_max (state_of (scanCurvature K fuel p d s w)))%float = true.
Proof.
  induction fuel as [| fuel IH]; intros p d s w H; cbn [scanCurvature];
    unfold bind at 1, this at 1.
  - destruct (p <=? end_param s)%float; exact H.
  - destruct (p <=? end_param s)%float; [| exact H].
    unfold bind at 1.
    destruct (getCurvature_read_only K p s w) as [Hs _]. unfold state_of in Hs.
    destruct (getCurvature K p s w) as [[[c | e | |] s'] w'];
      cbn [fst snd] in Hs; subst s'; try exact H.
    unfold bind at 1, this at 1. unfold bind at 1.
    destruct (curvature_max s <? c)%float eqn:E.
    + unfold update. apply IH. destruct s; cbn in *.
      eapply nonneg_ltb_nonneg; eassumption.
    + unfold ret. apply IH. exact H.
Qed.

(** X8.  When [getCurvatureMax] computes and returns, the value is at
    least zero (never negative, never NaN), it is cached, and every later
    call returns it with no further kernel call, whatever the fuel. *)
Theorem getCurvatureMax_nonnegative (fuel : nat) (s s' : SplineBase)
    (w w' : World heap) (r : double) :
  has_curvature_max s = false ->
  getCurvatureMax K fuel s w = (Returns r, s', w') ->
  (0 <=? r)%float = true /\
  has_curvature_max s' = true /\ curvature_max s' = r /\
  (forall fuel', getCurvatureMax K fuel' s' w' = (Returns r, s', w')).
Proof.
  intros Hflag H.
  unfold getCurvatureMax, bind at 1, this at 1 in H. rewrite Hflag in H.
  unfold bind at 1 in H.
  destruct (getUnitParameter K s w) as [[[u | e | |] s1] w1]; try discriminate.
  unfold bind at 1, this at 1 in H. unfold bind at 1, update at 1 in H.
  unfold bind at 1 in H.
  pose proof (scanCurvature_nonneg fuel (start_param s1)
                (u * geometric_resolution s1)%float
                (set_curvature_max 0%float s1) w1 eq_refl) as N.
  unfold state_of in N.
  destruct (scanCurvature K fuel (start_param s1)
              (u * geometric_resolution s1)%float
              (set_curvature_max 0%float s1) w1)
    as [[[[] | e | |] s2] w2]; try discriminate.
  cbn [fst snd] in N.
  unfold bind, update, this, ret in H. inversion H; subst.
  split; [destruct s2; exact N |].
  split; [destruct s2; reflexivity |].
  split; [destruct s2; reflexivity |].
  intros fuel'. rewrite getCurvatureMax_cached by (destruct s2; reflexivity).
  reflexivity.
Qed.

(** Once a step leaves the parameter where it is, every round of the loop
    samples the same parameter again. *)
Lemma scanCurvature_stuck (fuel : nat) : forall p d s w,
  (p + d)%float = p ->
  (p <=? end_param s)%float = true ->
  outside s p = false ->
  snd (s2550 K (kheap w) (curve s) p) = 0 ->
  result_of (scanCurvature K fuel p d s w) = OutOfFuel.
Proof.
  induction fuel as [| fuel IH]; intros p d s w Hstep Hle Hin Hst;
    cbn [scanCurvature]; unfold bind at 1, this at 1; rewrite Hle.
  - reflexivity.
  - unfold bind at 1. rewrite getCurvature_inside by exact Hin.
    destruct (s2550 K (kheap w) (curve s) p) as [c st] eqn:Ek.
    cbn [snd] in Hst. subst st. cbn [Z.eqb negb].
    unfold bind at 1, this at 1. unfold bind at 1. rewrite Hstep.
    destruct (curvature_max s <? c)%float; [unfold update | unfold ret];
      apply IH; trivial;
      try (destruct s; assumption);
      unfold logged; destruct s; cbn [kheap curve set_curvature_max] in *;
      rewrite Ek; reflexivity.
Qed.

(** X9.  [getCurvatureMax] does not end when the step
    [unit parameter * geometric_resolution] is absorbed by [start_param]
    (a resolution of zero, say) on a domain that is not empty and a curve
    whose curvature the kernel evaluates at [start_param]: whatever the
    fuel, the loop is still sampling [start_param] when it runs out. *)
Theorem getCurvatureMax_never_ends (s : SplineBase) (w : World heap)
    (u : double) :
  has_curvature_max s = false ->
  result_of (getUnitParameter K s w) = Returns u ->
  (start_param s + u * geometric_resolution s)%float = start_param s ->
  (start_param s <=? end_param s)%float = true ->
  snd (s2550 K (kheap w) (curve s) (start_param s)) = 0 ->
  forall fuel, result_of (getCurvatureMax K fuel s w) = OutOfFuel.
Proof.
  intros Hflag Hu Hstep Hle Hst fuel.
  pose proof (getCurveLength_frame K s w) as F.
  pose proof (getCurveLength_heap s w) as Hh.
  unfold getCurvatureMax, bind at 1, this at 1. rewrite Hflag.
  unfold bind at 1.
  unfold getUnitParameter, bind, this, ret, result_of, state_of, world_of in *.
  destruct (getCurveLength K s w) as [[[len | e | |] s1] w1];
    try discriminate.
  cbn [fst snd] in *. inversion Hu as [Hq]. rewrite Hq.
  destruct F as (_ & Hc & Hg & _ & Hps & Hpe).
  unfold update.
  pose proof (scanCurvature_stuck fuel (start_param s1)
                (u * geometric_resolution s1)%float
                (set_curvature_max 0%float s1) w1) as S.
  unfold result_of in S.
  destruct (scanCurvature K fuel (start_param s1)
              (u * geometric_resolution s1)%float
              (set_curvature_max 0%float s1) w1) as [[r2 s2] w2].
  cbn [fst snd] in S. rewrite S; [reflexivity | | | |].
  - rewrite Hps, Hg. exact Hstep.
  - destruct s1; cbn in *. subst. exact Hle.
  - unfold outside. destruct s1; cbn in *. subst.
    rewrite ltb_irrefl, (leb_not_ltb _ _ Hle). reflexivity.
  - destruct s1; cbn in *. subst. rewrite Hh. exact Hst.
Qed.

End Curvature.

(** ** More runs on the line kernel *)

Section MoreOnTheLine.

Import Line.
Local Open Scope float_scope.

Lemma out_of_domain_is_refused_witness :
  outside (fst fitted) 5 = true /\
  getCurvature K0 5 (fst fitted) (snd fitted)
    = (Throws (out_of_range in_range_msg), fst fitted, snd fitted) /\
  distanceError K0 libs (mkVector3d 0 1 0) 5 (fst fitted) (snd fitted)
    = (Throws (out_of_range in_range_msg), fst fitted, snd fitted).
Proof.
  pose proof (out_of_domain_is_refused K0 libs (fst fitted) (snd fitted) 5
                (mkVector3d 0 1 0) eq_refl) as H.
  split; [reflexivity |]. split; [exact (proj1 (proj2 H)) |].
  exact (proj2 (proj2 (proj2 H))).
Defined.

Lemma domain_ends_accepted_witness :
  (start_param (fst fitted) <=? end_param (fst fitted)) = true /\
  outside (fst fitted) 0 = false /\ outside (fst fitted) 2 = false /\
  result_of (getPoint K0 2 (fst fitted) (snd fitted)) = Returns [2; 0; 0].
Proof.
  pose proof (domain_ends_accepted K0 (fst fitted) (snd fitted) in_range_msg
                eq_refl) as H.
  split; [reflexivity |]. split; [exact (proj1 H) |].
  split; [exact (proj1 (proj2 H)) | reflexivity].
Defined.

(** Ten coordinates in dimension 3: three points are fitted, the tenth
    coordinate is passed over; the curve held before is released first. *)
Lemma interpolate_call_sequence_witness :
  new_calls (snd measured)
    (world_of (interpolate K0 (three_points ++ [7]) [] (fst measured) (snd measured)))
  = [call_freeCurve 1%Z; call_s1356 (three_points ++ [7]) 3 3 3] /\
  result_of (interpolate K0 (three_points ++ [7]) [] (fst measured) (snd measured))
  = Returns tt.
Proof.
  assert (0 < dimension (fst measured) < 2 ^ 31)%Z as Hd by (cbn; lia).
  assert (dimension (fst measured)
          <= Z.of_nat (List.length (three_points ++ [7%float])) < 2 ^ 31)%Z
    as Hn by (cbn; lia).
  pose proof (interpolate_call_sequence K0 (three_points ++ [7]) []
                (fst measured) (snd measured) Hd Hn) as H.
  split; [exact (proj1 H) | exact (proj2 (proj2 (proj2 H)))].
Defined.

(** The line kernel with a curvature that grows with the parameter. *)
Definition bend : Sisl heap :=
  mkSisl (curve_idim K0) (curve_ik K0) (s1363 K0) (s1227 K0)
    (fun h p t => (t, 0%Z)) (s2556 K0) (s1240 K0) (s1356 K0) (s1357 K0)
    (s1953 K0) (s1774 K0) (s1940 K0) (s2559 K0) (freeCurve K0) (copyCurve K0).

Definition bent : outcome double * SplineBase * World heap :=
  Eval vm_compute in getCurvatureMax bend 100 (fst fitted) (snd fitted).

Lemma getCurvatureMax_nonnegative_witness :
  has_curvature_max (fst fitted) = false /\
  getCurvatureMax bend 100 (fst fitted) (snd fitted)
    = (Returns 2, state_of bent, world_of bent) /\
  List.length (new_calls (snd fitted) (world_of bent)) = 18%nat /\
  (0 <=? 2) = true /\
  getCurvatureMax bend 0 (state_of bent) (world_of bent)
    = (Returns 2, state_of bent, world_of bent).
Proof.
  assert (getCurvatureMax bend 100 (fst fitted) (snd fitted)
          = (Returns 2, state_of bent, world_of bent)) as E
    by (vm_compute; reflexivity).
  pose proof (getCurvatureMax_nonnegative bend 100 (fst fitted) (state_of bent)
                (snd fitted) (world_of bent) 2 eq_refl E) as H.
  split; [reflexivity |]. split; [exact E |]. split; [reflexivity |].
  split; [exact (proj1 H) |].
  exact (proj2 (proj2 (proj2 H)) 0%nat).
Defined.

(** A geometric resolution of zero. *)
Definition coarse : SplineBase * World heap :=
  Eval vm_compute in
    run K0 libs [Interpolate three_points []] (SplineBase_empty 3 0 3 nan nan, w0).

Lemma getCurvatureMax_never_ends_witness :
  result_of (getUnitParameter K0 (fst coarse) (snd coarse)) = Returns 1 /\
  geometric_resolution (fst coarse) = 0 /\
  result_of (getCurvatureMax K0 1000 (fst coarse) (snd coarse)) = OutOfFuel.
Proof.
  split; [reflexivity |]. split; [reflexivity |].
  apply (getCurvatureMax_never_ends K0 (fst coarse) (snd coarse) 1);
    vm_compute; reflexivity.
Defined.

(** Below [- M_PI] the difference is raised; at [- M_PI] itself it is left,
    so that end of the interval is reached. *)
Lemma headingError_in_range_witness :
  (- (3 * M_PI) <? -4) = true /\ (-4 <? 3 * M_PI) = true /\
  result_of (headingError K0 libs (-4) 0 (fst fitted) (snd fitted))
    = Returns (-4 + 2 * M_PI) /\
  (- M_PI <=? -4 + 2 * M_PI) = true /\ (-4 + 2 * M_PI <=? M_PI) = true /\
  result_of (headingError K0 libs (- M_PI) 0 (fst fitted) (snd fitted))
    = Returns (- M_PI).
Proof.
  pose proof (headingError_in_range K0 libs (-4) 0 (fst fitted) (snd fitted)
                eq_refl eq_refl) as H.
  pose proof (headingError_in_range K0 libs (- M_PI) 0 (fst fitted) (snd fitted)
                eq_refl eq_refl) as H'.
  split; [reflexivity |]. split; [reflexivity |].
  split; [exact (proj1 H) |].
  split; [exact (proj1 (proj2 H)) |].
  split; [exact (proj2 (proj2 H)) | exact (proj1 H')].
Defined.

(** An object without a curve is assigned to one that holds curve 1: the
    target ends without a curve, and curve 1 is still live in the kernel's
    memory, released by no one. *)
Lemma assign_copies_witness :
  assign K0 0 1 [fst measured; s0] (snd measured)
    = (Returns 0%nat,
       [mkSplineBase 3%Z NULL 0.125 3%Z nan nan false (-1) false (-1); s0],
       snd measured) /\
  lookup (kheap (snd measured)) 1%Z
    = Some (mkSegment 3%Z 3%Z 0 2 2 true) /\
  new_calls (snd measured) (snd (SplineBase_copy K0 s0 (snd measured))) = [].
Proof.
  assert (0 <> 1)%nat as Hne by discriminate.
  pose proof (assign_copies K0 0 1 (fst measured) s0 [fst measured; s0]
                (snd measured) Hne eq_refl eq_refl) as H.
  split; [exact (proj1 H) |]. split; [reflexivity |].
  exact (proj2 (proj2 (proj2 (proj2 H)))).
Defined.


(** Without a curve the kernel has no length to give. *)
Lemma length_failure_is_passed_on_witness :
  result_of (getCurveLength K0 s0 w0)
    = Throws (runtime_error "cannot get the curve length") /\
  result_of (poseError K0 libs RightToLeft (mkVector3d 0 1 0) 0 0 0.5 s0 w0)
    = Throws (runtime_error "cannot get the curve length") /\
  new_calls w0
    (world_of (poseError K0 libs RightToLeft (mkVector3d 0 1 0) 0 0 0.5 s0 w0))
    = [call_s1240 NULL 0.125].
Proof.
  assert (getCurveLength K0 s0 w0
          = (Throws (runtime_error "cannot get the curve length"),
             state_of (getCurveLength K0 s0 w0),
             world_of (getCurveLength K0 s0 w0))) as E by reflexivity.
  pose proof (length_failure_is_passed_on K0 libs _ s0 _ w0 _ E) as H.
  split; [reflexivity |].
  destruct H as (_ & H & _).
  specialize (H RightToLeft (mkVector3d 0 1 0) 0 0 0.5).
  split; [rewrite H; reflexivity | rewrite H; reflexivity].
Defined.

End MoreOnTheLine.

(** ** What only a replacement changes *)

Section Frame.

Context {heap : Type}.
Variable K : Sisl heap.
Variable L : Libs.

(** What an object is about: everything but its cache. *)
Definition frame (s : SplineBase)
    : Z * SISLCurve_ptr * double * Z * double * double :=
  (dimension s, curve s, geometric_resolution s, curve_order s,
   start_param s, end_param s).

(** [m] leaves the kernel's memory as it is. *)
Definition heap_kept {A} (m : M heap A) : Prop :=
  forall s w, kheap (world_of (m s w)) = kheap w.

Lemma heap_kept_ret {A} (a : A) : heap_kept (@ret heap A a).
Proof. intros s w. reflexivity. Qed.
Lemma heap_kept_throw {A} e : heap_kept (@throw heap A e).
Proof. intros s w. reflexivity. Qed.
Lemma heap_kept_undefined {A} : heap_kept (@undefined heap A).
Proof. intros s w. reflexivity. Qed.
Lemma heap_kept_out_of_fuel {A} : heap_kept (@out_of_fuel heap A).
Proof. intros s w. reflexivity. Qed.
Lemma heap_kept_this : heap_kept (@this heap).
Proof. intros s w. reflexivity. Qed.
Lemma heap_kept_update f : heap_kept (@update heap f).
Proof. intros s w. reflexivity. Qed.
Lemma heap_kept_query {A} c (f : heap -> A) : heap_kept (query c f).
Proof. intros s w. reflexivity. Qed.

Lemma heap_kept_bind {A B} (m : M heap A) (k : A -> M heap B) :
  heap_kept m -> (forall a, heap_kept (k a)) -> heap_kept (bind m k).
Proof.
  intros Hm Hk s w. specialize (Hm s w). unfold bind, world_of in *.
  destruct (m s w) as [[[a | e | |] s'] w']; cbn [fst snd] in *; trivial.
  rewrite <- Hm. apply Hk.
Qed.

Ltac heap_kept_step :=
  first
    [ apply heap_kept_ret | apply heap_kept_throw | apply heap_kept_undefined
    | apply heap_kept_out_of_fuel | apply heap_kept_this
    | apply heap_kept_update | apply heap_kept_query
    | apply heap_kept_bind; [| intros ?]
    | match goal with
      | |- heap_kept (if ?b then _ else _) => destruct b
      | |- heap_kept (let (_, _) := ?p in _) => destruct p
      | |- heap_kept (match ?l with nil => _ | cons _ _ => _ end) => destruct l
      | |- heap_kept (match ?o with Some _ => _ | None => _ end) => destruct o
      end ].

Lemma scanCurvature_heap_kept (fuel : nat) : forall p d,
  heap_kept (scanCurvature K fuel p d).
Proof.
  induction fuel as [| fuel IH]; intros p d; cbn [scanCurvature].
  - repeat heap_kept_step.
  - apply heap_kept_bind; [apply heap_kept_this | intros s0].
    destruct (p <=? end_param s0)%float; [| apply heap_kept_ret].
    apply heap_kept_bind; [unfold getCurvature; repeat heap_kept_step |].
    intros c. apply heap_kept_bind; [apply heap_kept_this | intros s1].
    apply heap_kept_bind; [| intros _; apply IH].
    destruct (curvature_max s1 <? c)%float; repeat heap_kept_step.
Qed.

Lemma quiet_call_heap (m : method) (sw : SplineBase * World heap) :
  replaces_curve m = false ->
  kheap (snd (call K L m sw)) = kheap (snd sw).
Proof.
  intros Hm.
  assert (forall A (c : M heap A), heap_kept c ->
            kheap (snd (effect c sw)) = kheap (snd sw)) as E.
  { intros A c Hc. specialize (Hc (fst sw) (snd sw)).
    unfold effect, world_of in *.
    destruct (c (fst sw) (snd sw)) as [[r s'] w']. exact Hc. }
  destruct m; try discriminate; cbn [call]; apply E.
  - unfold getPoint. repeat heap_kept_step.
  - unfold getCurvature. repeat heap_kept_step.
  - unfold getVariationOfCurvature. repeat heap_kept_step.
  - unfold getCurveLength. repeat heap_kept_step.
  - unfold getUnitParameter, getCurveLength. repeat heap_kept_step.
  - unfold getCurvatureMax, getUnitParameter, getCurveLength.
    repeat first [apply scanCurvature_heap_kept | heap_kept_step].
  - unfold findOneClosestPoint, findClosestPoints. repeat heap_kept_step.
  - unfold findClosestPoints. repeat heap_kept_step.
  - unfold localClosestPointSearch. repeat heap_kept_step.
  - unfold getFrenetFrame. repeat heap_kept_step.
  - unfold getHeading, getFrenetFrame. repeat heap_kept_step.
  - unfold headingError, getHeading, getFrenetFrame. repeat heap_kept_step.
  - unfold distanceError, getPoint, getHeading, getFrenetFrame.
    repeat heap_kept_step.
  - unfold poseError, getUnitParameter, getCurveLength, getGeometricResolution,
      localClosestPointSearch, distanceError, headingError, getPoint,
      getHeading, getFrenetFrame.
    repeat heap_kept_step.
Qed.

Lemma frame_set_curve_length f x s :
  frame s = f -> frame (set_curve_length x s) = f.
Proof. destruct s; exact (fun H => H). Qed.
Lemma frame_set_has_curve_length f b s :
  frame s = f -> frame (set_has_curve_length b s) = f.
Proof. destruct s; exact (fun H => H). Qed.
Lemma frame_set_curvature_max f x s :
  frame s = f -> frame (set_curvature_max x s) = f.
Proof. destruct s; exact (fun H => H). Qed.
Lemma frame_set_has_curvature_max f b s :
  frame s = f -> frame (set_has_curvature_max b s) = f.
Proof. destruct s; exact (fun H => H). Qed.

Lemma getCurveLength_keeps_frame f :
  keeps (fun s => frame s = f) (getCurveLength K).
Proof.
  unfold getCurveLength.
  repeat first
    [ apply keeps_update; intros;
      first [ apply frame_set_curve_length | apply frame_set_has_curve_length ];
      assumption
    | apply keeps_ret | apply keeps_throw | apply keeps_this | apply keeps_query
    | apply keeps_bind; [| intros ?]
    | match goal with
      | |- keeps _ (if ?b then _ else _) => destruct b
      | |- keeps _ (let (_, _) := ?p in _) => destruct p
      end ].
Qed.

Lemma getCurvatureMax_keeps_frame f fuel :
  keeps (fun s => frame s = f) (getCurvatureMax K fuel).
Proof.
  unfold getCurvatureMax.
  apply keeps_bind; [apply keeps_this | intros s0].
  destruct (has_curvature_max s0); [apply keeps_ret |].
  apply keeps_bind.
  { apply getUnitParameter_keeps, getCurveLength_keeps_frame. }
  intros u. apply keeps_bind; [apply keeps_this | intros s1].
  apply keeps_bind.
  { apply keeps_update. intros s. apply frame_set_curvature_max. }
  intros _. apply keeps_bind.
  { apply scanCurvature_keeps. intros x s. apply frame_set_curvature_max. }
  intros _. apply keeps_bind.
  { apply keeps_update. intros s. apply frame_set_has_curvature_max. }
  intros _. apply keeps_bind; [apply keeps_this | intros s2; apply keeps_ret].
Qed.

Lemma quiet_call_frame (m : method) (sw : SplineBase * World heap) :
  replaces_curve m = false ->
  frame (fst (call K L m sw)) = frame (fst sw).
Proof.
  intros Hm. destruct m; try discriminate; cbn [call]; rewrite fst_effect.
  - now apply getPoint_keeps.
  - now apply getCurvature_keeps.
  - now apply getVariationOfCurvature_keeps.
  - now apply getCurveLength_keeps_frame.
  - now apply (getUnitParameter_keeps K (fun s => frame s = frame (fst sw))
                 (getCurveLength_keeps_frame _)).
  - now apply getCurvatureMax_keeps_frame.
  - now apply findOneClosestPoint_keeps.
  - now apply findClosestPoints_keeps.
  - now apply localClosestPointSearch_keeps.
  - now apply getFrenetFrame_keeps.
  - now apply getHeading_keeps.
  - now apply headingError_keeps.
  - now apply distanceError_keeps.
  - now apply (poseError_keeps K L (fun s => frame s = frame (fst sw))
                 (getCurveLength_keeps_frame _)).
Qed.

Lemma do_step_quiet_heap (x : step) (st : Store) (w : World heap) :
  quiet x = true -> kheap (snd (do_step K L x (st, w))) = kheap w.
Proof.
  intros Hq. destruct x as [b m | t src]; cbn [do_step quiet fst snd] in *.
  - destruct (nth_error st b) as [sb |]; [| reflexivity].
    apply negb_true_iff in Hq.
    pose proof (quiet_call_heap m (sb, w) Hq) as H.
    destruct (call K L m (sb, w)) as [s1 w1]. exact H.
  - unfold assign.
    destruct (nth_error st t); [| reflexivity].
    destruct (nth_error st src); [| reflexivity].
    rewrite Hq. reflexivity.
Qed.

(** X14.  For the object at an address [a]: through any program of
    member-function calls, on any objects, and assignments in which that
    object is neither the receiver of [interpolate], [simplify] or [clear]
    nor the target of an assignment from another object, whatever the calls
    return or throw, it keeps its curve, its domain, its dimension, order
    and resolution.  When moreover the program has no [interpolate],
    [simplify] or [clear] on any object and no assignment between two
    different objects, the kernel's memory is unchanged. *)
Theorem only_replacements_touch_the_curve (a : nat) (st : Store)
    (s : SplineBase) (w : World heap) (steps : list step) :
  nth_error st a = Some s ->
  forallb (leaves_curve a) steps = true ->
  (exists s',
     nth_error (fst (exec K L steps (st, w))) a = Some s' /\
     frame s' = frame s) /\
  (forallb quiet steps = true ->
   kheap (snd (exec K L steps (st, w))) = kheap w).
Proof.
  intros Ha Hsteps. split.
  - apply (exec_keeps K L (fun s' => frame s' = frame s)
             (fun m => negb (replaces_curve m)) a) with (s := s); trivial.
    intros m sw Hm HP. apply negb_true_iff in Hm.
    rewrite quiet_call_frame by exact Hm. exact HP.
  - clear Ha Hsteps. revert st w.
    induction steps as [| x steps IH]; intros st w H; cbn [exec fold_left].
    + reflexivity.
    + cbn [forallb] in H. apply andb_true_iff in H. destruct H as [Hx Hrest].
      pose proof (do_step_quiet_heap x st w Hx) as Hh.
      destruct (do_step K L x (st, w)) as [st1 w1]. cbn [snd] in Hh.
      rewrite <- Hh. apply (IH st1 w1 Hrest).
Qed.

End Frame.

Section FrameOnTheLine.

Import Line.
Local Open Scope float_scope.

Lemma only_replacements_touch_the_curve_witness :
  let steps := [Method 0 (GetCurvatureMax 100);
                Method 0 (PoseError RightToLeft (mkVector3d 0 1 0) 0 0 0.5);
                Method 1 (Interpolate five_points []); Assignment 1 0;
                Method 0 (GetPoint 7);
                Method 0 (FindOneClosestPoint [1; 1; 0] 0.125)] in
  forallb (leaves_curve 0) steps = true /\
  exists s',
    nth_error (fst (exec K0 libs steps ([fst fitted; s0], snd fitted))) 0
      = Some s' /\
    frame s' = frame (fst fitted).
Proof.
  intros steps. split; [reflexivity |].
  exact (proj1 (only_replacements_touch_the_curve K0 libs 0%nat [fst fitted; s0]
                  (fst fitted) (snd fitted) steps eq_refl eq_refl)).
Defined.

Lemma simplify_outcomes_witness :
  simplify K0 0.125 s0 w0
    = (Throws (runtime_error "the curve is not initialized"), s0, w0) /\
  result_of (simplify K0 0.125 (fst measured) (snd measured))
    = Returns [0; 0; 0] /\
  new_calls (snd measured)
    (world_of (simplify K0 0.125 (fst measured) (snd measured)))
    = [call_s1940 1%Z [0.125; 0.125; 0.125]; call_freeCurve 1%Z].
Proof.
  split.
  - exact (proj1 (simplify_outcomes K0 0.125 s0 w0) eq_refl).
  - split; [reflexivity |].
    exact (proj1 (proj1 (proj2 (proj2
             (simplify_outcomes K0 0.125 (fst measured) (snd measured))))
             _ eq_refl)).
Defined.

End FrameOnTheLine.
